(** * CVSS base score from a vector string: the calculator of cvssCalculator.py

    A shallow embedding of [parse_vector], [roundup_1_dec], [cvss31_base],
    [cvss40_base] and [compute_from_vector], and the properties of the
    specification settled against it.

    Conventions of the embedding:
    - a Python [str] is a [string]; a character is a code point below 256;
    - a Python [dict] with string keys is a [gmap string _];
    - a Python [float] is a primitive binary64 [float]; [+ - * /] and the
      comparisons are the IEEE 754 operations, rounding to nearest even;
    - a raised exception is the [Raise] case of [result]; the constructors of
      [exn] say which [raise] of the module (or of the interpreter) it is. *)

From Stdlib Require Import ZArith Floats Ascii String List.
From stdpp Require Import gmap strings.

Set Warnings "-inexact-float".
Local Open Scope string_scope.

(** ** Exceptions and results *)

Inductive exn : Type :=
| KeyError (key : string)
    (** [d[key]] with [key] absent; [cvss31_base] catches it (line 76) *)
| MalformedVector
    (** line 29: ValueError, the string does not start with CVSS: *)
| MissingVersion
    (** line 34: ValueError, the version pattern does not match *)
| InvalidMetric (e : string)
    (** line 77: ValueError built from the caught [KeyError e] *)
| MissingMetrics (missing : list string)
    (** line 122: ValueError listing the joined [missing] keys *)
| UnsupportedVersion (ver : string)
    (** line 145: ValueError carrying the version *)
| ProviderUnavailable (cause : string)
    (** line 111: RuntimeError, the import of the cvss package failed *)
| ProviderError (detail : string)
    (** whatever [CVSS4(vector).base_score] raises *)
| CeilNaN
    (** [math.ceil] of a NaN: ValueError of the interpreter *)
| FloatOverflow.
    (** OverflowError of the interpreter: [math.ceil] of an infinity,
        [pow] out of range, an int too large for a float *)

Inductive result (A : Type) : Type :=
| Ok (a : A)
| Raise (e : exn).
Arguments Ok {A} a.
Arguments Raise {A} e.

#[global] Instance result_ret : MRet result := @Ok.
#[global] Instance result_bind : MBind result := fun A B f r =>
  match r with
  | Ok a => f a
  | Raise e => Raise e
  end.

(** [d[k]] on a dict. *)
Definition getitem {V : Type} (d : gmap string V) (k : string) : result V :=
  match d !! k with
  | Some v => Ok v
  | None => Raise (KeyError k)
  end.

(** ** The [str] methods the parser uses *)

Module Str.

(** [str.isspace] on one character, for code points below 256:
    TAB..CR, FS..US, SPACE, NEL and NBSP. *)
Definition isspace (c : ascii) : bool :=
  let n := N_of_ascii c in
  ((9 <=? n) && (n <=? 13) || (28 <=? n) && (n <=? 32)
   || (n =? 133) || (n =? 160))%N.

Fixpoint lstrip (s : string) : string :=
  match s with
  | String c s' => if isspace c then lstrip s' else s
  | EmptyString => EmptyString
  end.

Fixpoint rstrip (s : string) : string :=
  match s with
  | String c s' =>
      match rstrip s' with
      | EmptyString => if isspace c then EmptyString else String c EmptyString
      | r => String c r
      end
  | EmptyString => EmptyString
  end.

(** [s.strip()] *)
Definition strip (s : string) : string := rstrip (lstrip s).

(** [s.startswith(p)] *)
Fixpoint startswith (s p : string) {struct p} : bool :=
  match p, s with
  | EmptyString, _ => true
  | String a p', String b s' => Ascii.eqb a b && startswith s' p'
  | String _ _, EmptyString => false
  end.

(** [c in s] for a one-character [c] *)
Fixpoint contains (c : ascii) (s : string) : bool :=
  match s with
  | String d s' => if Ascii.eqb d c then true else contains c s'
  | EmptyString => false
  end.

(** [s.split(sep)] for a one-character [sep]: never empty, one more
    segment than there are separators. *)
Fixpoint split (sep : ascii) (s : string) : list string :=
  match s with
  | String c s' =>
      if Ascii.eqb c sep then EmptyString :: split sep s'
      else match split sep s' with
           | seg :: segs => String c seg :: segs
           | [] => [String c EmptyString]
           end
  | EmptyString => [EmptyString]
  end.

(** [s.split(sep, 1)] as the pair Python unpacks it into, used only where
    [sep in s] holds: the text before the first [sep] and the text after
    it (see [split1_spec]). *)
Fixpoint split1 (sep : ascii) (s : string) : string * string :=
  match s with
  | String c s' =>
      if Ascii.eqb c sep then (EmptyString, s')
      else let '(k, v) := split1 sep s' in (String c k, v)
  | EmptyString => (EmptyString, EmptyString)
  end.

(** every character of [s] satisfies [p] *)
Fixpoint all (p : ascii → bool) (s : string) : bool :=
  match s with
  | String c s' => p c && all p s'
  | EmptyString => true
  end.

(** [sep.join(l)] *)
Fixpoint join (sep : string) (l : list string) : string :=
  match l with
  | [] => EmptyString
  | [x] => x
  | x :: l' => x ++ sep ++ join sep l'
  end.

End Str.

(** ** The version pattern

    [re.match(r"^CVSS:(?P<ver>[0-9.]+)\/", vector)]: the literal prefix, a
    greedy non-empty run of digits and dots (the group), a slash. *)

Module Re.

(** the class [[0-9.]] *)
Definition ver_char (c : ascii) : bool :=
  let n := N_of_ascii c in
  ((48 <=? n) && (n <=? 57) || (n =? 46))%N.

(** the character [c] matched at the start of [s] *)
Definition next_is (c : ascii) (s : string) : bool :=
  match s with
  | String d _ => Ascii.eqb d c
  | EmptyString => false
  end.

(** [[0-9.]+\/] matched at the start of [s] by a backtracking matcher:
    take one more character of the class while that leads to a match,
    otherwise stop the run here and ask for the slash. Returns the run. *)
Fixpoint run_slash (s : string) : option string :=
  match s with
  | String c s' =>
      if ver_char c then
        match run_slash s' with
        | Some g => Some (String c g)
        | None => if next_is "/" s' then Some (String c EmptyString) else None
        end
      else None
  | EmptyString => None
  end.

(** [String.prefix] that also gives back what follows the prefix *)
Fixpoint after_prefix (p s : string) : option string :=
  match p, s with
  | EmptyString, _ => Some s
  | String a p', String b s' => if Ascii.eqb a b then after_prefix p' s' else None
  | String _ _, EmptyString => None
  end.

(** the whole pattern; the result is [m.group("ver")] *)
Definition match_version (vector : string) : option string :=
  match after_prefix "CVSS:" vector with
  | Some rest => run_slash rest
  | None => None
  end.

End Re.

(** ** parse_vector (lines 26-45) *)

(** the loop of lines 40-44 over the segments, updating [metrics] *)
Fixpoint parse_parts (parts : list string) (metrics : gmap string string)
  : gmap string string :=
  match parts with
  | [] => metrics
  | p :: parts' =>
      if negb (Str.contains ":" p) then parse_parts parts' metrics
      else
        let '(k, v) := Str.split1 ":" p in
        parse_parts parts' (<[k := v]> metrics)
  end.

Definition parse_vector (vector : string) : result (string * gmap string string) :=
  let vector := Str.strip vector in
  if negb (Str.startswith vector "CVSS:") then Raise MalformedVector
  else
    match Re.match_version vector with
    | None => Raise MissingVersion
    | Some ver =>
        let parts := tail (Str.split "/" vector) in
        Ok (ver, parse_parts parts ∅)
    end.

(** ** The float operations of the interpreter the engine uses *)

Module Float.

(** [math.ceil(x)]: the least integer not below [x], as a Python int. *)
Definition ceil (x : float) : result Z :=
  match Prim2SF x with
  | S754_nan => Raise CeilNaN
  | S754_infinity _ => Raise FloatOverflow
  | S754_zero _ => Ok 0%Z
  | S754_finite s m e =>
      let v := if s then Zneg m else Zpos m in
      Ok (if (0 <=? e)%Z then v * 2 ^ e else - ((- v) / 2 ^ (- e)))%Z
  end.

(** the conversion of an int operand of a float operation: the nearest
    float, ties to even; OverflowError beyond the largest float *)
Definition of_int (n : Z) : result float :=
  match binary_normalize prec emax n 0 false with
  | S754_infinity _ => Raise FloatOverflow
  | f => Ok (SF2Prim f)
  end.

(** [pow(x, n)] for a float [x] and a positive int [n]. Python converts
    [n] to a float and calls the C library's [pow]; that result is taken
    here to be the float nearest to the exact power (ties to even), which
    the library approximates to within its last bit. OverflowError when the
    power is out of range. *)
Definition pow (x : float) (n : positive) : result float :=
  let odd := Z.odd (Zpos n) in
  match Prim2SF x with
  | S754_nan => Ok nan
  | S754_zero s => Ok (SF2Prim (S754_zero (s && odd)))
  | S754_infinity s => Ok (SF2Prim (S754_infinity (s && odd)))
  | S754_finite s m e =>
      let v := if s && odd then Zneg (m ^ n) else Zpos (m ^ n) in
      match binary_normalize prec emax v (e * Zpos n) false with
      | S754_infinity _ => Raise FloatOverflow
      | f => Ok (SF2Prim f)
      end
  end.

(** [x <= n] for a float and an integer, on the exact value of the float *)
Definition int_not_below (n : Z) (x : float) : Prop :=
  match Prim2SF x with
  | S754_zero _ => (0 ≤ n)%Z
  | S754_finite s m e =>
      let v := if s then Zneg m else Zpos m in
      if (0 <=? e)%Z then (v * 2 ^ e ≤ n)%Z else (v ≤ n * 2 ^ (- e))%Z
  | _ => False
  end.

(** [min(a, b)] of two floats: [b] only when [b < a] *)
Definition min (a b : float) : float :=
  if (b <? a)%float then b else a.

End Float.

(** ** CVSS v3.1 (lines 53-95) *)

Definition V31_AV : gmap string float :=
  {[ "N" := 0.85; "A" := 0.62; "L" := 0.55; "P" := 0.20 ]}%float.
Definition V31_AC : gmap string float :=
  {[ "L" := 0.77; "H" := 0.44 ]}%float.
Definition V31_PR_U : gmap string float :=
  {[ "N" := 0.85; "L" := 0.62; "H" := 0.27 ]}%float.
Definition V31_PR_C : gmap string float :=
  {[ "N" := 0.85; "L" := 0.68; "H" := 0.50 ]}%float.
Definition V31_UI : gmap string float :=
  {[ "N" := 0.85; "R" := 0.62 ]}%float.
Definition V31_CIA : gmap string float :=
  {[ "H" := 0.56; "L" := 0.22; "N" := 0.00 ]}%float.

(** line 63: [math.ceil(x * 10.0) / 10.0] *)
Definition roundup_1_dec (x : float) : result float :=
  n ← Float.ceil (x * 10.0)%float;
  d ← Float.of_int n;
  Ok (d / 10.0)%float.

(** what the [try] block of lines 68-75 binds *)
Record weights : Type := Weights {
  w_av : float;
  w_ac : float;
  w_scope : string;
  w_pr : float;
  w_ui : float;
  w_c : float;
  w_i : float;
  w_a : float
}.

(** lines 68-75, in the order Python evaluates them; a failing subscript
    raises [KeyError] with the key that was not found *)
Definition cvss31_lookup (metrics : gmap string string) : result weights :=
  t ← getitem metrics "AV"; av ← getitem V31_AV t;
  t ← getitem metrics "AC"; ac ← getitem V31_AC t;
  scope ← getitem metrics "S";
  let table := if String.eqb scope "C" then V31_PR_C else V31_PR_U in
  t ← getitem metrics "PR"; pr ← getitem table t;
  t ← getitem metrics "UI"; ui ← getitem V31_UI t;
  t ← getitem metrics "C"; c ← getitem V31_CIA t;
  t ← getitem metrics "I"; i ← getitem V31_CIA t;
  t ← getitem metrics "A"; a ← getitem V31_CIA t;
  Ok (Weights av ac scope pr ui c i a).

(** line 79 *)
Definition cvss31_iss (c i a : float) : float :=
  (1 - (1 - c) * (1 - i) * (1 - a))%float.

(** lines 80-83 *)
Definition cvss31_impact (scope : string) (iss : float) : result float :=
  if String.eqb scope "U" then Ok (6.42 * iss)%float
  else
    p ← Float.pow (iss - 0.02)%float 15;
    Ok (7.52 * (iss - 0.029) - 3.25 * p)%float.

(** line 85 *)
Definition cvss31_exploitability (av ac pr ui : float) : float :=
  (8.22 * av * ac * pr * ui)%float.

(** lines 87-93: the base score before rounding *)
Definition cvss31_pre_round (scope : string) (impact exploitability : float) : float :=
  if (impact <=? 0)%float then 0.0%float
  else if String.eqb scope "U" then
    Float.min (impact + exploitability)%float 10.0%float
  else
    Float.min (1.08 * (impact + exploitability))%float 10.0%float.

(** lines 65-95: the [try] block with its handler, then the statements
    above in turn, then the rounding of line 95 *)
Definition cvss31_base (metrics : gmap string string) : result float :=
  match cvss31_lookup metrics with
  | Raise (KeyError e) => Raise (InvalidMetric e)
  | Raise e => Raise e
  | Ok w =>
      let iss := cvss31_iss (w_c w) (w_i w) (w_a w) in
      impact ← cvss31_impact (w_scope w) iss;
      let exploitability :=
        cvss31_exploitability (w_av w) (w_ac w) (w_pr w) (w_ui w) in
      roundup_1_dec (cvss31_pre_round (w_scope w) impact exploitability)
  end.

(** ** CVSS v4.0 through the cvss package (lines 101-132) *)

(** [CVSS4(vector).base_score] of the package, when it can be imported *)
Definition provider : Type := string → result float.

(** the outcome of [from cvss import CVSS4] in the running interpreter:
    the text of the exception it raised, or the class *)
Definition import_outcome : Type := (string + provider)%type.

Definition required40 : list string :=
  ["AV"; "AC"; "AT"; "PR"; "UI"; "VC"; "VI"; "VA"; "SC"; "SI"; "SA"].

Definition cvss40_base (cvss : import_outcome) (metrics : gmap string string)
  : result float :=
  match cvss with
  | inl cause => Raise (ProviderUnavailable cause)
  | inr CVSS4 =>
      let required := required40 in
      let missing :=
        List.filter (fun m => match metrics !! m with None => true | Some _ => false end)
                    required in
      match missing with
      | _ :: _ => Raise (MissingMetrics missing)
      | [] =>
          items ← mapM (fun k => v ← getitem metrics k; Ok (k ++ ":" ++ v)) required;
          CVSS4 ("CVSS:4.0/" ++ Str.join "/" items)
      end
  end.

(** ** Entry point (lines 138-145) *)

Definition compute_from_vector (cvss : import_outcome) (vector : string)
  : result float :=
  '(ver, metrics) ← parse_vector vector;
  if Str.startswith ver "3.1" then cvss31_base metrics
  else if Str.startswith ver "4" then cvss40_base cvss metrics
  else Raise (UnsupportedVersion ver).

(** ** The valid v3.1 base vectors

    The value tokens the weight tables recognise, as enumerations, and the
    metric map that holds exactly the eight base metrics of a vector. *)

Module V31.

Inductive av : Set := AV_N | AV_A | AV_L | AV_P.
Inductive ac : Set := AC_L | AC_H.
Inductive pr : Set := PR_N | PR_L | PR_H.
Inductive ui : Set := UI_N | UI_R.
Inductive scope : Set := Unchanged | Changed.
Inductive cia : Set := High | Low | None_.

Definition av_token (x : av) : string :=
  match x with AV_N => "N" | AV_A => "A" | AV_L => "L" | AV_P => "P" end.
Definition ac_token (x : ac) : string :=
  match x with AC_L => "L" | AC_H => "H" end.
Definition pr_token (x : pr) : string :=
  match x with PR_N => "N" | PR_L => "L" | PR_H => "H" end.
Definition ui_token (x : ui) : string :=
  match x with UI_N => "N" | UI_R => "R" end.
Definition scope_token (x : scope) : string :=
  match x with Unchanged => "U" | Changed => "C" end.
Definition cia_token (x : cia) : string :=
  match x with High => "H" | Low => "L" | None_ => "N" end.

Record vector : Set := Vector {
  AV : av; AC : ac; PR : pr; UI : ui; S : scope; C : cia; I : cia; A : cia
}.

(** the eight metrics of a vector as the parser would deliver them *)
Definition metrics (v : vector) : gmap string string :=
  {[ "AV" := av_token (AV v); "AC" := ac_token (AC v);
     "PR" := pr_token (PR v); "UI" := ui_token (UI v);
     "S" := scope_token (S v);
     "C" := cia_token (C v); "I" := cia_token (I v); "A" := cia_token (A v) ]}.

Definition required : list string :=
  ["AV"; "AC"; "PR"; "UI"; "S"; "C"; "I"; "A"].

(** two metric maps agree on the eight required keys *)
Definition agree (m1 m2 : gmap string string) : Prop :=
  ∀ k, k ∈ required → m1 !! k = m2 !! k.

(** [m] holds the tokens of [v] under the eight required keys (and
    possibly other keys) *)
Definition holds (m : gmap string string) (v : vector) : Prop :=
  agree m (metrics v).

(** [m] without the keys that are not required *)
Definition restrict (m : gmap string string) : gmap string string :=
  filter (fun kv => kv.1 ∈ required) m.

End V31.

(** ** The v3.1 formula in the words of the specification

    Written over the enumerated tokens, with the weight tables as functions
    and the scope deciding by cases. *)

Module Formula.
Import V31.

Definition av_weight (x : av) : float :=
  match x with AV_N => 0.85 | AV_A => 0.62 | AV_L => 0.55 | AV_P => 0.20 end%float.
Definition ac_weight (x : ac) : float :=
  match x with AC_L => 0.77 | AC_H => 0.44 end%float.
Definition pr_weight (s : scope) (x : pr) : float :=
  match s, x with
  | _, PR_N => 0.85
  | Unchanged, PR_L => 0.62
  | Unchanged, PR_H => 0.27
  | Changed, PR_L => 0.68
  | Changed, PR_H => 0.50
  end%float.
Definition ui_weight (x : ui) : float :=
  match x with UI_N => 0.85 | UI_R => 0.62 end%float.
Definition cia_weight (x : cia) : float :=
  match x with High => 0.56 | Low => 0.22 | None_ => 0.00 end%float.

Definition iss (v : vector) : float :=
  let c := cia_weight (C v) in
  let i := cia_weight (I v) in
  let a := cia_weight (A v) in
  (1 - (1 - c) * (1 - i) * (1 - a))%float.

Definition impact (v : vector) : result float :=
  match S v with
  | Unchanged => Ok (6.42 * iss v)%float
  | Changed =>
      p ← Float.pow (iss v - 0.02)%float 15;
      Ok (7.52 * (iss v - 0.029) - 3.25 * p)%float
  end.

Definition exploitability (v : vector) : float :=
  (8.22 * av_weight (AV v) * ac_weight (AC v)
   * pr_weight (S v) (PR v) * ui_weight (UI v))%float.

(** the base score before rounding: zero unless the impact is positive *)
Definition pre_round (v : vector) : result float :=
  impact ← impact v;
  if (0 <? impact)%float then
    match S v with
    | Unchanged => Ok (Float.min (impact + exploitability v) 10.0)%float
    | Changed => Ok (Float.min (1.08 * (impact + exploitability v)) 10.0)%float
    end
  else Ok 0.0%float.

(** round up to one decimal *)
Definition score (v : vector) : result float :=
  base ← pre_round v;
  roundup_1_dec base.

End Formula.

(** ** Inputs used in the examples *)

(** an interpreter without the cvss package *)
Definition no_cvss : import_outcome := inl "No module named 'cvss'".

(** a map with the base metrics of a vector and a temporal metric *)
Definition sample_map : gmap string string :=
  {[ "AV" := "N"; "AC" := "L"; "PR" := "N"; "UI" := "N"; "S" := "C";
     "C" := "L"; "I" := "N"; "A" := "N"; "E" := "P" ]}.

Definition sample_vector : V31.vector :=
  V31.Vector V31.AV_N V31.AC_L V31.PR_N V31.UI_N V31.Changed
             V31.Low V31.None_ V31.None_.

(** a vector without impact *)
Definition harmless_vector : V31.vector :=
  V31.Vector V31.AV_N V31.AC_L V31.PR_N V31.UI_N V31.Unchanged
             V31.None_ V31.None_ V31.None_.

(** the v4.0 base metrics without SA *)
Definition no_SA : gmap string string :=
  {[ "AV" := "N"; "AC" := "L"; "AT" := "N"; "PR" := "N"; "UI" := "N";
     "VC" := "H"; "VI" := "H"; "VA" := "H"; "SC" := "N"; "SI" := "N" ]}.

(** a v3.1 map with a scope that is neither U nor C *)
Definition odd_scope : gmap string string :=
  <[ "S" := "X" ]> (<[ "PR" := "L" ]> (V31.metrics sample_vector)).

(** a v3.1 map whose only defect is the value of AV *)
Definition bad_AV : gmap string string :=
  <[ "AV" := "X" ]> (V31.metrics harmless_vector).

(** ** Offending metrics of a v3.1 map

    The weight table a required key is looked up in: the table of PR is the
    one the scope in the map selects, and S has none. *)
Definition weight_table (m : gmap string string) (k : string)
  : option (gmap string float) :=
  if String.eqb k "AV" then Some V31_AV
  else if String.eqb k "AC" then Some V31_AC
  else if String.eqb k "PR" then
    Some (match m !! "S" with
          | Some scope => if String.eqb scope "C" then V31_PR_C else V31_PR_U
          | None => V31_PR_U
          end)
  else if String.eqb k "UI" then Some V31_UI
  else if String.eqb k "C" || String.eqb k "I" || String.eqb k "A" then Some V31_CIA
  else None.

(** a required key that is absent, or whose value is not in its table *)
Definition offending (m : gmap string string) (k : string) : Prop :=
  k ∈ V31.required ∧
  match m !! k with
  | None => True
  | Some t =>
      match weight_table m k with
      | Some table => table !! t = None
      | None => False
      end
  end.

(** the key of the [KeyError] an offending key causes: the key itself when
    it is absent, its value when the value is not in the table *)
Definition reported (m : gmap string string) (k : string) : string :=
  match m !! k with
  | None => k
  | Some t => t
  end.

(** the vector of the specification that gives AV twice *)
Definition twice_AV : string :=
  "CVSS:3.1/AV:N/AV:A/AC:L/PR:N/UI:N/S:U/C:N/I:N/A:N".

Definition twice_AV_vector : V31.vector :=
  V31.Vector V31.AV_A V31.AC_L V31.PR_N V31.UI_N V31.Unchanged
             V31.None_ V31.None_ V31.None_.

(** ** Notions used in the further properties *)

(** the key a segment sets in the loop of [parse_vector], if any *)
Definition key_of (p : string) : option string :=
  if Str.contains ":" p then Some (Str.split1 ":" p).1 else None.


(** [float(n) / 10.0]: the score of [n] tenths *)
Definition tenth (n : Z) : result float :=
  d ← Float.of_int n; Ok (d / 10.0)%float.

(** the order in which the [try] block of [cvss31_base] reads the keys *)
Definition lookup_order : list string :=
  ["AV"; "AC"; "S"; "PR"; "UI"; "C"; "I"; "A"].

(** ** Severity of the v3.1 values

    The values of each metric from the least to the most severe, as the
    weight tables order them. *)

Module Severity.
Import V31.

Definition av_rank (x : av) : nat :=
  match x with AV_P => 0 | AV_L => 1 | AV_A => 2 | AV_N => 3 end.
Definition ac_rank (x : ac) : nat :=
  match x with AC_H => 0 | AC_L => 1 end.
Definition pr_rank (x : pr) : nat :=
  match x with PR_H => 0 | PR_L => 1 | PR_N => 2 end.
Definition ui_rank (x : ui) : nat :=
  match x with UI_R => 0 | UI_N => 1 end.
Definition scope_rank (x : scope) : nat :=
  match x with Unchanged => 0 | Changed => 1 end.
Definition cia_rank (x : cia) : nat :=
  match x with None_ => 0 | Low => 1 | High => 2 end.

(** [v'] is at least as severe as [v] in every metric *)
Definition le (v v' : vector) : Prop :=
  (av_rank (AV v) ≤ av_rank (AV v') ∧ ac_rank (AC v) ≤ ac_rank (AC v')
   ∧ pr_rank (PR v) ≤ pr_rank (PR v') ∧ ui_rank (UI v) ≤ ui_rank (UI v')
   ∧ scope_rank (S v) ≤ scope_rank (S v')
   ∧ cia_rank (C v) ≤ cia_rank (C v') ∧ cia_rank (I v) ≤ cia_rank (I v')
   ∧ cia_rank (A v) ≤ cia_rank (A v'))%nat.

End Severity.

(** ** The scores of the valid vectors, computed once

    The 2592 valid vectors in the order of [index], and the tenths of the
    score [cvss31_base] gives each (see [tenths_correct]). *)

Module Table.
Import V31 Severity.

Definition index (v : vector) : nat :=
  (cia_rank (A v) + 3 * (cia_rank (I v) + 3 * (cia_rank (C v)
   + 3 * (scope_rank (S v) + 2 * (ui_rank (UI v) + 2 * (pr_rank (PR v)
   + 3 * (ac_rank (AC v) + 2 * av_rank (AV v))))))))%nat.

Definition vectors : list vector :=
  av ← [AV_P; AV_L; AV_A; AV_N]; ac ← [AC_H; AC_L];
  pr ← [PR_H; PR_L; PR_N]; ui ← [UI_R; UI_N];
  s ← [Unchanged; Changed];
  c ← [None_; Low; High]; i ← [None_; Low; High]; a ← [None_; Low; High];
  [Vector av ac pr ui s c i a].

Definition tenths_of (r : result float) : Z :=
  match r with
  | Ok s => match Float.ceil (s * 10.0)%float with Ok n => n | Raise _ => 0%Z end
  | Raise _ => 0%Z
  end.

Definition tenths : list Z :=
  Eval vm_compute in map (fun v => tenths_of (cvss31_base (metrics v))) vectors.

Definition lookup (v : vector) : Z := nth (index v) tenths 0%Z.

End Table.

(** the v4.0 vector with the eleven base metrics in the order of
    [required40], each with the value [value] gives it *)
Definition canonical40 (value : string → string) : string :=
  "CVSS:4.0/" ++ Str.join "/" (map (fun k => k ++ ":" ++ value k) required40).

(** the value of key [k] in the metrics of a valid v3.1 vector *)
Definition token31 (v : V31.vector) (k : string) : string :=
  default EmptyString (V31.metrics v !! k).

(** a valid v3.1 vector as a vector string, in the order of the standard *)
Definition render31 (v : V31.vector) : string :=
  "CVSS:3.1/" ++ Str.join "/" (map (fun k => k ++ ":" ++ token31 v k) V31.required).

(** [b] is not empty and [rstrip] leaves it alone *)
Definition tight (b : string) : Prop :=
  Str.rstrip b = b ∧ b ≠ EmptyString.

(** a v3.1 map with two defects: the value of PR and the absence of A *)
Definition two_defects : gmap string string :=
  <[ "PR" := "Z" ]> (delete "A" (V31.metrics sample_vector)).

(** comparisons of results, for checks over all vectors and all scores *)
Definition leb_result (a b : result float) : bool :=
  match a, b with
  | Ok x, Ok y => (x <=? y)%float
  | _, _ => false
  end.

Definition at_least_tenth (r : result float) : bool :=
  match r with
  | Ok s => (0.1 <=? s)%float
  | Raise _ => false
  end.

Definition in_range (r : result float) : bool :=
  match r with
  | Ok s => (0 <=? s)%float && (s <=? 10)%float
  | Raise _ => false
  end.

(** * Properties *)

(** ** The result monad and dict lookups *)

Lemma bind_Ok {A B : Type} (a : A) (f : A → result B) : (Ok a ≫= f) = f a.
Proof. reflexivity. Qed.

Lemma bind_Raise {A B : Type} (e : exn) (f : A → result B) :
  (Raise e ≫= f) = Raise e.
Proof. reflexivity. Qed.

Lemma getitem_Some {V : Type} (d : gmap string V) k v :
  d !! k = Some v → getitem d k = Ok v.
Proof. intros H. unfold getitem. now rewrite H. Qed.

Lemma getitem_None {V : Type} (d : gmap string V) k :
  d !! k = None → getitem d k = Raise (KeyError k).
Proof. intros H. unfold getitem. now rewrite H. Qed.

Lemma Ok_inj {A : Type} (a b : A) : Ok a = Ok b → a = b.
Proof.
  intros H. exact (f_equal (fun r => match r with Ok x => x | Raise _ => a end) H).
Qed.

Lemma float_neq (x y : float) : Prim2SF x ≠ Prim2SF y → x ≠ y.
Proof. intros H ->. now apply H. Qed.

Ltac float_discriminate :=
  apply float_neq; vm_compute; discriminate.

(** ** The weight tables hold the weights of the enumerated tokens *)

Section Tables.
Import V31 Formula.

Lemma getitem_AV x : getitem V31_AV (av_token x) = Ok (av_weight x).
Proof. destruct x; reflexivity. Qed.

Lemma getitem_AC x : getitem V31_AC (ac_token x) = Ok (ac_weight x).
Proof. destruct x; reflexivity. Qed.

Lemma getitem_PR s x :
  getitem (if String.eqb (scope_token s) "C" then V31_PR_C else V31_PR_U)
          (pr_token x) = Ok (pr_weight s x).
Proof. destruct s, x; reflexivity. Qed.

Lemma getitem_UI x : getitem V31_UI (ui_token x) = Ok (ui_weight x).
Proof. destruct x; reflexivity. Qed.

Lemma getitem_CIA x : getitem V31_CIA (cia_token x) = Ok (cia_weight x).
Proof. destruct x; reflexivity. Qed.

Lemma required_elems k :
  k ∈ required ↔
  k = "AV" ∨ k = "AC" ∨ k = "PR" ∨ k = "UI" ∨ k = "S" ∨ k = "C" ∨ k = "I" ∨ k = "A".
Proof.
  unfold required. rewrite !elem_of_cons, elem_of_nil. tauto.
Qed.

Lemma agree_intro m1 m2 :
  Forall (fun k => m1 !! k = m2 !! k) required → agree m1 m2.
Proof. intros H k Hk. revert k Hk. now apply Forall_forall. Qed.

Lemma holds_getitem m v k t :
  holds m v → k ∈ required → metrics v !! k = Some t → getitem m k = Ok t.
Proof.
  intros H Hk Ht. apply getitem_Some. now rewrite (H k Hk).
Qed.

(** On a map holding a valid vector the [try] block binds the weights of
    the formula. *)
Lemma cvss31_lookup_holds m v :
  holds m v →
  cvss31_lookup m =
  Ok (Weights (av_weight (AV v)) (ac_weight (AC v)) (scope_token (S v))
              (pr_weight (S v) (PR v)) (ui_weight (UI v))
              (cia_weight (C v)) (cia_weight (I v)) (cia_weight (A v))).
Proof.
  intros H. unfold cvss31_lookup.
  assert (Hget : ∀ k t, k ∈ required → metrics v !! k = Some t → getitem m k = Ok t)
    by (intros; eapply holds_getitem; eauto).
  rewrite (Hget "AV" (av_token (AV v))), bind_Ok, getitem_AV, bind_Ok
    by (rewrite ?required_elems; auto 10).
  rewrite (Hget "AC" (ac_token (AC v))), bind_Ok, getitem_AC, bind_Ok
    by (rewrite ?required_elems; auto 10).
  rewrite (Hget "S" (scope_token (S v))), bind_Ok
    by (rewrite ?required_elems; auto 10).
  cbv zeta.
  rewrite (Hget "PR" (pr_token (PR v))), bind_Ok, getitem_PR, bind_Ok
    by (rewrite ?required_elems; auto 10).
  rewrite (Hget "UI" (ui_token (UI v))), bind_Ok, getitem_UI, bind_Ok
    by (rewrite ?required_elems; auto 10).
  rewrite (Hget "C" (cia_token (C v))), bind_Ok, getitem_CIA, bind_Ok
    by (rewrite ?required_elems; auto 10).
  rewrite (Hget "I" (cia_token (I v))), bind_Ok, getitem_CIA, bind_Ok
    by (rewrite ?required_elems; auto 10).
  rewrite (Hget "A" (cia_token (A v))), bind_Ok, getitem_CIA, bind_Ok
    by (rewrite ?required_elems; auto 10).
  reflexivity.
Qed.

Lemma agree_restrict m : agree (restrict m) m.
Proof.
  intros k Hk. unfold restrict.
  destruct (m !! k) as [t |] eqn:E.
  - apply map_lookup_filter_Some. split; [exact E | exact Hk].
  - apply map_lookup_filter_None. left. exact E.
Qed.

(** The [try] block reads the argument under the required keys only. *)
Lemma cvss31_lookup_agree m1 m2 :
  agree m1 m2 → cvss31_lookup m1 = cvss31_lookup m2.
Proof.
  intros H. unfold cvss31_lookup, getitem.
  rewrite (H "AV"), (H "AC"), (H "S"), (H "PR"), (H "UI"), (H "C"),
    (H "I"), (H "A") by (apply required_elems; auto 10).
  reflexivity.
Qed.

Lemma sample_holds : holds sample_map sample_vector.
Proof. apply agree_intro. repeat constructor. Defined.

Lemma harmless_holds : holds (metrics harmless_vector) harmless_vector.
Proof. intros k _. reflexivity. Defined.

End Tables.

(** ** The engine on valid vectors *)

Section Engine.
Import V31 Formula.

Lemma cvss31_impact_formula v :
  cvss31_impact (scope_token (S v))
                (cvss31_iss (cia_weight (C v)) (cia_weight (I v)) (cia_weight (A v)))
  = impact v.
Proof. unfold impact. destruct (S v); reflexivity. Qed.

(** The impact of a valid vector is a number: the test [impact <= 0] of
    the code and the test [0 < impact] exclude each other. *)
Lemma impact_ordered v imp :
  impact v = Ok imp → (imp <=? 0)%float = negb (0 <? imp)%float.
Proof.
  destruct v as [av ac pr ui s c i a].
  destruct s, c, i, a; vm_compute; intros [= <-]; reflexivity.
Qed.

Lemma cvss31_pre_round_formula v imp :
  impact v = Ok imp →
  Ok (cvss31_pre_round (scope_token (S v)) imp (exploitability v)) = pre_round v.
Proof.
  intros E. unfold pre_round, cvss31_pre_round.
  rewrite E, bind_Ok, (impact_ordered v imp E).
  destruct (0 <? imp)%float, (S v); reflexivity.
Qed.

(** Every valid vector is scored: no step raises. *)
Lemma cvss31_base_total v : ∃ s, cvss31_base (metrics v) = Ok s.
Proof.
  destruct v as [av ac pr ui s c i a].
  destruct av, ac, pr, ui, s, c, i, a; eexists; vm_compute; reflexivity.
Qed.

End Engine.

(** ** The rounding *)

Lemma ceil_least x n :
  Float.ceil x = Ok n → Float.int_not_below n x ∧ ¬ Float.int_not_below (n - 1) x.
Proof.
  unfold Float.ceil, Float.int_not_below.
  destruct (Prim2SF x) as [z | i | | s m e]; try discriminate.
  - intros [= <-]. lia.
  - set (v := if s then Z.neg m else Z.pos m).
    destruct (0 <=? e)%Z eqn:He; intros [= <-]; [lia |].
    apply Z.leb_gt in He.
    assert (Hk : (0 < 2 ^ (- e))%Z) by (apply Z.pow_pos_nonneg; lia).
    pose proof (Z.div_mod (- v) (2 ^ (- e))) as Hdm.
    pose proof (Z.mod_pos_bound (- v) (2 ^ (- e)) Hk) as Hb.
    split; nia.
Qed.

Lemma roundup_1_dec_inv x s :
  roundup_1_dec x = Ok s ↔
  ∃ n d, Float.ceil (x * 10.0)%float = Ok n ∧ Float.of_int n = Ok d
         ∧ s = (d / 10.0)%float.
Proof.
  unfold roundup_1_dec. split.
  - destruct (Float.ceil (x * 10.0)%float) as [n | e]; [| discriminate].
    rewrite bind_Ok.
    destruct (Float.of_int n) as [d | e] eqn:Hd; [| discriminate].
    rewrite bind_Ok. intros [= <-]. exists n, d. auto.
  - intros (n & d & -> & Hd & ->). rewrite bind_Ok, Hd. reflexivity.
Qed.

(** ** The v3.1 engine *)

Section Claims31.
Import V31 Formula.

(** C1: on every metric map that holds recognised values under the eight
    required keys, [cvss31_base] returns the score of the piecewise v3.1
    formula: the impact sub-score from the three impact weights, the
    impact by scope, the exploitability with the privileges weight of the
    scope's table, the capped sum (scaled by 1.08 when the scope is
    changed) when the impact is positive, all in binary64 arithmetic. *)
Theorem cvss31_base_formula m v :
  holds m v → cvss31_base m = score v.
Proof.
  intros H. unfold cvss31_base.
  rewrite (cvss31_lookup_holds m v H).
  cbn [w_av w_ac w_scope w_pr w_ui w_c w_i w_a].
  rewrite cvss31_impact_formula. unfold score.
  destruct (impact v) as [imp | e] eqn:E.
  - rewrite bind_Ok.
    change (cvss31_exploitability _ _ _ _) with (exploitability v).
    pose proof (cvss31_pre_round_formula v imp E) as <-.
    now rewrite bind_Ok.
  - unfold pre_round. now rewrite E.
Qed.

Lemma cvss31_base_formula_witness :
  holds sample_map sample_vector ∧ cvss31_base sample_map = score sample_vector.
Proof.
  split; [exact sample_holds |].
  apply (cvss31_base_formula sample_map sample_vector). exact sample_holds.
Defined.

(** C2, as the code has it: the reference vector with changed scope and
    low confidentiality impact scores 5.8 (its impact 1.436 and its
    exploitability 3.887 sum to 5.323, scaled by 1.08 to 5.749, rounded
    up). *)
Theorem compute_reference_changed_scope cvss :
  compute_from_vector cvss "CVSS:3.1/AV:N/AC:L/PR:N/UI:N/S:C/C:L/I:N/A:N"
  = Ok 5.8%float.
Proof. vm_compute. reflexivity. Qed.

(** C2, as it is stated, does not hold: the score of that vector is not
    5.3. *)
Lemma compute_reference_changed_scope_not_5_3 :
  compute_from_vector no_cvss "CVSS:3.1/AV:N/AC:L/PR:N/UI:N/S:C/C:L/I:N/A:N"
  ≠ Ok 5.3%float.
Proof.
  assert (E : compute_from_vector no_cvss
                "CVSS:3.1/AV:N/AC:L/PR:N/UI:N/S:C/C:L/I:N/A:N" = Ok 5.8%float)
    by (vm_compute; reflexivity).
  rewrite E. intros H. apply Ok_inj in H. revert H. float_discriminate.
Qed.

(** C5: the score of a valid vector is [roundup_1_dec] of the base score
    before rounding; [roundup_1_dec x] is the float of the least integer
    not below the float [x * 10.0], divided by [10.0]; 7.341 gives 7.4 and
    7.3 stays 7.3. *)
Theorem roundup_1_dec_law :
  (∀ m v, holds m v →
     ∃ w impact s,
       cvss31_lookup m = Ok w
       ∧ cvss31_impact (w_scope w) (cvss31_iss (w_c w) (w_i w) (w_a w)) = Ok impact
       ∧ roundup_1_dec
           (cvss31_pre_round (w_scope w) impact
              (cvss31_exploitability (w_av w) (w_ac w) (w_pr w) (w_ui w))) = Ok s
       ∧ cvss31_base m = Ok s)
  ∧ (∀ x s, roundup_1_dec x = Ok s ↔
       ∃ n d, Float.ceil (x * 10.0)%float = Ok n
              ∧ Float.int_not_below n (x * 10.0)%float
              ∧ ¬ Float.int_not_below (n - 1) (x * 10.0)%float
              ∧ Float.of_int n = Ok d ∧ s = (d / 10.0)%float)
  ∧ roundup_1_dec 7.341%float = Ok 7.4%float
  ∧ roundup_1_dec 7.300%float = Ok 7.3%float.
Proof.
  split; [| split; [| split]].
  - intros m v H.
    destruct (cvss31_base_total v) as [s Hs].
    assert (Hm : cvss31_base m = Ok s).
    { unfold cvss31_base. rewrite (cvss31_lookup_agree m (metrics v) H). exact Hs. }
    pose proof Hm as Hr. revert Hr. unfold cvss31_base.
    destruct (cvss31_lookup m) as [w | e] eqn:Hw; [| destruct e; discriminate].
    destruct (cvss31_impact _ _) as [impact | e] eqn:Hi; [| discriminate].
    rewrite bind_Ok. intros Hr. exists w, impact, s. auto.
  - intros x s. rewrite roundup_1_dec_inv. split.
    + intros (n & d & Hn & Hd & ->). exists n, d.
      destruct (ceil_least _ _ Hn). auto.
    + intros (n & d & Hn & _ & _ & Hd & ->). now exists n, d.
  - vm_compute. reflexivity.
  - vm_compute. reflexivity.
Qed.

Lemma roundup_1_dec_law_witness :
  holds sample_map sample_vector ∧ cvss31_base sample_map = Ok 5.8%float.
Proof.
  split; [exact sample_holds |].
  destruct (proj1 roundup_1_dec_law sample_map sample_vector sample_holds)
    as (w & impact & s & _ & _ & _ & Hs).
  rewrite Hs. vm_compute in Hs. exact (eq_sym Hs).
Defined.

(** C6: when the impact the code computes is not positive the score is
    exactly 0.0, whatever the exploitability; that is so for every valid
    vector with no confidentiality, integrity and availability impact,
    under either scope, and for the reference vector of the
    specification. *)
Theorem cvss31_base_no_impact :
  (∀ m w impact,
     cvss31_lookup m = Ok w →
     cvss31_impact (w_scope w) (cvss31_iss (w_c w) (w_i w) (w_a w)) = Ok impact →
     (impact <=? 0)%float = true →
     cvss31_base m = Ok 0.0%float)
  ∧ (∀ m v, holds m v → C v = None_ → I v = None_ → A v = None_ →
       cvss31_base m = Ok 0.0%float)
  ∧ (∀ cvss,
       compute_from_vector cvss "CVSS:3.1/AV:N/AC:L/PR:N/UI:N/S:U/C:N/I:N/A:N"
       = Ok 0.0%float).
Proof.
  assert (Hzero : ∀ m w impact,
     cvss31_lookup m = Ok w →
     cvss31_impact (w_scope w) (cvss31_iss (w_c w) (w_i w) (w_a w)) = Ok impact →
     (impact <=? 0)%float = true →
     cvss31_base m = Ok 0.0%float).
  { intros m w impact Hw Hi Hle. unfold cvss31_base.
    rewrite Hw, Hi, bind_Ok. unfold cvss31_pre_round. rewrite Hle.
    vm_compute. reflexivity. }
  split; [exact Hzero | split].
  - intros m v H HC HI HA.
    pose proof (cvss31_lookup_holds m v H) as Hw.
    rewrite HC, HI, HA in Hw.
    destruct (S v).
    + eapply Hzero; [exact Hw | vm_compute; reflexivity | vm_compute; reflexivity].
    + eapply Hzero; [exact Hw | vm_compute; reflexivity | vm_compute; reflexivity].
  - intros cvss. vm_compute. reflexivity.
Qed.

Lemma cvss31_base_no_impact_witness :
  holds (metrics harmless_vector) harmless_vector
  ∧ cvss31_base (metrics harmless_vector) = Ok 0.0%float.
Proof.
  split; [exact harmless_holds |].
  apply (proj1 (proj2 cvss31_base_no_impact) (metrics harmless_vector) harmless_vector);
    [exact harmless_holds | reflexivity | reflexivity | reflexivity].
Defined.

(** C10: two metric maps that agree on the eight required keys get the
    same result from [cvss31_base]; a map that holds a valid vector and
    any other keys is scored, with the score of its restriction to the
    required keys. *)
Theorem cvss31_base_required_only m1 m2 :
  agree m1 m2 →
  cvss31_base m1 = cvss31_base m2
  ∧ (∀ v, holds m1 v →
       ∃ s, cvss31_base m1 = Ok s ∧ cvss31_base (restrict m1) = Ok s
            ∧ cvss31_base (metrics v) = Ok s).
Proof.
  intros H.
  assert (Hsame : ∀ a b, agree a b → cvss31_base a = cvss31_base b).
  { intros a b Hab. unfold cvss31_base. now rewrite (cvss31_lookup_agree a b Hab). }
  split; [exact (Hsame m1 m2 H) |].
  intros v Hv. destruct (cvss31_base_total v) as [s Hs]. exists s.
  rewrite (Hsame (restrict m1) m1 (agree_restrict m1)).
  rewrite (Hsame m1 (metrics v) Hv). auto.
Qed.

Lemma cvss31_base_required_only_witness :
  agree sample_map (metrics sample_vector)
  ∧ cvss31_base sample_map = cvss31_base (metrics sample_vector).
Proof.
  split; [exact sample_holds |].
  exact (proj1 (cvss31_base_required_only sample_map (metrics sample_vector)
                  sample_holds)).
Defined.

End Claims31.

(** ** The parser *)

Section Strings.

Lemma contains_app_sep sep k v : Str.contains sep (k ++ String sep v) = true.
Proof.
  induction k as [| c k IH]; simpl.
  - now rewrite Ascii.eqb_refl.
  - rewrite IH. now destruct (Ascii.eqb c sep).
Qed.

Lemma split1_app sep k v :
  Str.contains sep k = false → Str.split1 sep (k ++ String sep v) = (k, v).
Proof.
  induction k as [| c k IH]; simpl.
  - now rewrite Ascii.eqb_refl.
  - destruct (Ascii.eqb c sep); [discriminate |].
    intros H. now rewrite (IH H).
Qed.

(** Where [sep in p], [p.split(sep, 1)] has two elements: what precedes the
    first separator, which has no separator, and what follows it. *)
Lemma split1_spec sep p :
  Str.contains sep p = true →
  p = (Str.split1 sep p).1 ++ String sep (Str.split1 sep p).2
  ∧ Str.contains sep (Str.split1 sep p).1 = false.
Proof.
  induction p as [| c p IH]; simpl; [discriminate |].
  destruct (Ascii.eqb c sep) eqn:E.
  - apply Ascii.eqb_eq in E as ->. now intros _.
  - intros H. destruct (IH H) as [Hp Hk].
    destruct (Str.split1 sep p) as [k v]. simpl in *.
    rewrite E. split; [| exact Hk].
    change (String c p = String c (k ++ String sep v)). now rewrite <- Hp.
Qed.

Lemma startswith_app a b : Str.startswith (a ++ b) a = true.
Proof.
  induction a as [| c a IH]; [reflexivity |].
  change (String c a ++ b) with (String c (a ++ b)). cbn [Str.startswith].
  now rewrite Ascii.eqb_refl, IH.
Qed.

Lemma startswith_key k sep v :
  Str.startswith (k ++ String sep v) (k ++ String sep EmptyString) = true.
Proof.
  induction k as [| c k IH].
  - change (Str.startswith (String sep v) (String sep EmptyString) = true).
    cbn [Str.startswith]. rewrite Ascii.eqb_refl. now destruct v.
  - change (Str.startswith (String c (k ++ String sep v))
              (String c (k ++ String sep EmptyString)) = true).
    cbn [Str.startswith]. now rewrite Ascii.eqb_refl, IH.
Qed.

Lemma after_prefix_app a b : Re.after_prefix a (a ++ b) = Some b.
Proof.
  induction a as [| c a IH]; simpl; [reflexivity |].
  now rewrite Ascii.eqb_refl.
Qed.

Lemma parse_parts_app l1 l2 m :
  parse_parts (l1 ++ l2)%list m = parse_parts l2 (parse_parts l1 m).
Proof.
  revert m. induction l1 as [| p l1 IH]; intros m; simpl; [reflexivity |].
  destruct (negb (Str.contains ":" p)); [apply IH |].
  destruct (Str.split1 ":" p) as [k v]. apply IH.
Qed.

(** Segments that do not start with [k:] leave the value of [k] alone. *)
Lemma parse_parts_other k l m :
  (∀ p, p ∈ l → Str.startswith p (k ++ ":") = false) →
  parse_parts l m !! k = m !! k.
Proof.
  revert m. induction l as [| p l IH]; intros m Hl; simpl; [reflexivity |].
  assert (Hl' : ∀ q, q ∈ l → Str.startswith q (k ++ ":") = false)
    by (intros q Hq; apply Hl; now right).
  destruct (Str.contains ":" p) eqn:Hc; simpl; [| now apply IH].
  destruct (split1_spec ":" p Hc) as [Hp _].
  destruct (Str.split1 ":" p) as [k' v']. simpl in Hp.
  rewrite (IH _ Hl'). apply lookup_insert_ne. intros ->.
  specialize (Hl p (list_elem_of_here _ _)).
  rewrite Hp in Hl. change (k ++ ":") with (k ++ String ":" EmptyString) in Hl.
  rewrite startswith_key in Hl. discriminate.
Qed.

(** What [parse_vector] returns, spelled out. *)
Lemma parse_vector_Ok raw ver m :
  parse_vector raw = Ok (ver, m) →
  Re.match_version (Str.strip raw) = Some ver
  ∧ m = parse_parts (tail (Str.split "/" (Str.strip raw))) ∅.
Proof.
  unfold parse_vector.
  destruct (negb (Str.startswith (Str.strip raw) "CVSS:")); [discriminate |].
  destruct (Re.match_version (Str.strip raw)) as [ver' |]; [| discriminate].
  intros [= -> <-]. auto.
Qed.

Lemma run_slash_cons c s :
  Re.run_slash (String c s) =
  if Re.ver_char c then
    match Re.run_slash s with
    | Some g => Some (String c g)
    | None => if Re.next_is "/" s then Some (String c EmptyString) else None
    end
  else None.
Proof. reflexivity. Qed.

(** A run of the class that no slash follows does not match. *)
Lemma run_slash_unterminated run rest :
  Str.all Re.ver_char run = true →
  (∀ c rest', rest = String c rest' → Re.ver_char c = false ∧ c ≠ "/"%char) →
  Re.run_slash (run ++ rest) = None.
Proof.
  intros Hrun Hrest. induction run as [| a run IH].
  - change (EmptyString ++ rest) with rest.
    destruct rest as [| c rest']; [reflexivity |].
    rewrite run_slash_cons.
    destruct (Hrest c rest' eq_refl) as [-> _]. reflexivity.
  - change (String a run ++ rest) with (String a (run ++ rest)).
    rewrite run_slash_cons.
    cbn [Str.all] in Hrun. apply andb_prop in Hrun as [Ha Hrun].
    rewrite Ha, (IH Hrun).
    assert (Hnext : Re.next_is "/" (run ++ rest) = false).
    { destruct run as [| b run'].
      - change (EmptyString ++ rest) with rest.
        destruct rest as [| c rest']; [reflexivity |].
        destruct (Hrest c rest' eq_refl) as [_ Hc]. now apply Ascii.eqb_neq.
      - change (String b run' ++ rest) with (String b (run' ++ rest)).
        cbn [Str.all] in Hrun. apply andb_prop in Hrun as [Hb _].
        cbn [Re.next_is].
        destruct (Ascii.eqb b "/") eqn:E; [| reflexivity].
        apply Ascii.eqb_eq in E. subst b. discriminate Hb. }
    now rewrite Hnext.
Qed.

(** A non-empty run of the class followed by a slash is the group. *)
Lemma run_slash_terminated a run rest :
  Str.all Re.ver_char (String a run) = true →
  Re.run_slash (String a run ++ String "/" rest) = Some (String a run).
Proof.
  revert a. induction run as [| b run IH]; intros a Hrun.
  - cbn [Str.all] in Hrun. apply andb_prop in Hrun as [Ha _].
    change (Re.run_slash (String a (String "/" rest)) = Some (String a EmptyString)).
    rewrite run_slash_cons, Ha. reflexivity.
  - cbn [Str.all] in Hrun. apply andb_prop in Hrun as [Ha Hrun].
    change (String a (String b run) ++ String "/" rest)
      with (String a (String b run ++ String "/" rest)).
    rewrite run_slash_cons, Ha, (IH b Hrun). reflexivity.
Qed.

Lemma startswith_4_not_31 ver :
  Str.startswith ver "4" = true → Str.startswith ver "3.1" = false.
Proof.
  destruct ver as [| c ver]; [discriminate |]. cbn [Str.startswith].
  destruct (Ascii.eqb "4" c) eqn:E; [| discriminate].
  apply Ascii.eqb_eq in E as <-. reflexivity.
Qed.

End Strings.

Section ClaimsParser.
Import V31.

(** C7: a key given more than once gets the value of its last occurrence:
    when the segments after the version are [before], [k:v] and [after],
    and no segment of [after] starts with [k:], the parsed map has [v]
    under [k]. The vector of the specification with AV given as N and then
    as A parses to the map with AV = A and is scored on that map. *)
Theorem parse_vector_last_wins :
  (∀ raw ver m k v before after,
     parse_vector raw = Ok (ver, m) →
     tail (Str.split "/" (Str.strip raw)) = (before ++ (k ++ ":" ++ v)%string :: after)%list →
     Str.contains ":" k = false →
     (∀ p, p ∈ after → Str.startswith p (k ++ ":") = false) →
     m !! k = Some v)
  ∧ parse_vector twice_AV = Ok ("3.1", metrics twice_AV_vector)
  ∧ metrics twice_AV_vector !! "AV" = Some "A"
  ∧ (∀ cvss, compute_from_vector cvss twice_AV
             = cvss31_base (metrics twice_AV_vector)).
Proof.
  split; [| split; [| split]].
  - intros raw ver m k v before after Hparse Hparts Hk Hafter.
    apply parse_vector_Ok in Hparse as [_ ->].
    rewrite Hparts, parse_parts_app.
    change (k ++ ":" ++ v) with (k ++ String ":" v).
    cbn [parse_parts].
    rewrite contains_app_sep, (split1_app ":" k v Hk). cbn [negb].
    rewrite (parse_parts_other k after _ Hafter).
    apply lookup_insert_eq.
  - vm_compute. reflexivity.
  - reflexivity.
  - intros cvss. vm_compute. reflexivity.
Qed.

Lemma parse_vector_last_wins_witness :
  metrics twice_AV_vector !! "AV" = Some "A".
Proof.
  apply (proj1 parse_vector_last_wins twice_AV "3.1" (metrics twice_AV_vector)
           "AV" "A" ["AV:N"]
           ["AC:L"; "PR:N"; "UI:N"; "S:U"; "C:N"; "I:N"; "A:N"]).
  - vm_compute. reflexivity.
  - vm_compute. reflexivity.
  - reflexivity.
  - intros p Hp. repeat (apply elem_of_cons in Hp as [-> | Hp]; [reflexivity |]).
    now apply elem_of_nil in Hp.
Defined.

(** C8: once the string is parsed, the version decides: a version that
    starts with 3.1 goes to [cvss31_base], one that starts with 4 to
    [cvss40_base], any other raises the unsupported-version error; so does
    every input whose version is 2.0. *)
Theorem compute_from_vector_routes cvss raw ver m :
  parse_vector raw = Ok (ver, m) →
  (Str.startswith ver "3.1" = true → compute_from_vector cvss raw = cvss31_base m)
  ∧ (Str.startswith ver "4" = true →
     compute_from_vector cvss raw = cvss40_base cvss m)
  ∧ (Str.startswith ver "3.1" = false → Str.startswith ver "4" = false →
     compute_from_vector cvss raw = Raise (UnsupportedVersion ver))
  ∧ (ver = "2.0" → compute_from_vector cvss raw = Raise (UnsupportedVersion "2.0")).
Proof.
  intros Hparse. unfold compute_from_vector. rewrite Hparse, bind_Ok.
  repeat split.
  - now intros ->.
  - intros H4. now rewrite (startswith_4_not_31 ver H4), H4.
  - now intros -> ->.
  - now intros ->.
Qed.

Lemma compute_from_vector_routes_witness :
  compute_from_vector no_cvss "CVSS:2.0/AV:N/AC:L/Au:N/C:P/I:P/A:P"
  = Raise (UnsupportedVersion "2.0").
Proof.
  refine (proj2 (proj2 (proj2 (compute_from_vector_routes no_cvss
            "CVSS:2.0/AV:N/AC:L/Au:N/C:P/I:P/A:P" "2.0"
            {[ "AV" := "N"; "AC" := "L"; "Au" := "N";
               "C" := "P"; "I" := "P"; "A" := "P" ]} _))) eq_refl).
  vm_compute. reflexivity.
Defined.

(** C9: when the stripped input is CVSS: followed by a run of digits and
    dots and the run is followed neither by a slash nor by another
    character of the class (the input ends there, or goes on with some
    other character), [parse_vector] raises the missing-version error, even
    with a run that is not empty, as in CVSS:3.1. *)
Theorem parse_vector_version_needs_slash raw run rest :
  Str.strip raw = "CVSS:" ++ run ++ rest →
  Str.all Re.ver_char run = true →
  (∀ c rest', rest = String c rest' → Re.ver_char c = false ∧ c ≠ "/"%char) →
  parse_vector raw = Raise MissingVersion.
Proof.
  intros Hraw Hrun Hrest. unfold parse_vector, Re.match_version.
  rewrite Hraw, startswith_app, after_prefix_app. cbn [negb].
  now rewrite (run_slash_unterminated run rest Hrun Hrest).
Qed.

Lemma parse_vector_version_needs_slash_witness :
  parse_vector "CVSS:3.1" = Raise MissingVersion.
Proof.
  apply (parse_vector_version_needs_slash "CVSS:3.1" "3.1" "").
  - reflexivity.
  - reflexivity.
  - intros c rest' H. discriminate H.
Defined.

End ClaimsParser.

(** ** Validation *)

Section Validation.
Import V31.

Lemma offending_absent m k :
  k ∈ required → m !! k = None →
  offending m k ∧ Raise (KeyError k) = Raise (A := weights) (KeyError (reported m k)).
Proof.
  intros Hk E. unfold offending, reported. rewrite E. auto.
Qed.

Lemma offending_unrecognised m k t table :
  k ∈ required → m !! k = Some t → weight_table m k = Some table →
  table !! t = None →
  offending m k ∧ Raise (KeyError t) = Raise (A := weights) (KeyError (reported m k)).
Proof.
  intros Hk E Ht Hnone. unfold offending, reported. rewrite E, Ht. auto.
Qed.

Lemma not_offending m k t table x :
  m !! k = Some t → weight_table m k = Some table → table !! t = Some x →
  ¬ offending m k.
Proof.
  intros E Ht Hx [_ H]. rewrite E, Ht, Hx in H. discriminate.
Qed.

Lemma weight_table_PR m scope :
  m !! "S" = Some scope →
  weight_table m "PR" = Some (if String.eqb scope "C" then V31_PR_C else V31_PR_U).
Proof. intros E. unfold weight_table. cbn. now rewrite E. Qed.

Ltac required := apply required_elems; auto 10.

Ltac lookup_key m k E :=
  let t := fresh "t" in
  destruct (m !! k) as [t |] eqn:E;
  [ rewrite (getitem_Some m k t E), bind_Ok
  | rewrite (getitem_None m k E), bind_Raise; right; exists k;
    apply offending_absent; [required | exact E] ].

Ltac lookup_weight m k E table T Htable :=
  let x := fresh "x" in
  match type of E with
  | _ = Some ?t =>
      destruct (table !! t) as [x |] eqn:T;
      [ rewrite (getitem_Some table t x T), bind_Ok
      | rewrite (getitem_None table t T), bind_Raise; right; exists k;
        apply (offending_unrecognised m k t table); [required | exact E | exact Htable | exact T] ]
  end.

(** The [try] block either binds all the weights, and then no required key
    is offending, or raises the [KeyError] of an offending key. *)
Lemma cvss31_lookup_cases m :
  (∃ w, cvss31_lookup m = Ok w ∧ ∀ k, ¬ offending m k)
  ∨ (∃ k, offending m k ∧ cvss31_lookup m = Raise (KeyError (reported m k))).
Proof.
  unfold cvss31_lookup.
  lookup_key m "AV" EAV.
  lookup_weight m "AV" EAV V31_AV TAV (eq_refl : weight_table m "AV" = Some V31_AV).
  lookup_key m "AC" EAC.
  lookup_weight m "AC" EAC V31_AC TAC (eq_refl : weight_table m "AC" = Some V31_AC).
  lookup_key m "S" ES. cbv zeta.
  lookup_key m "PR" EPR.
  lookup_weight m "PR" EPR (if String.eqb t1 "C" then V31_PR_C else V31_PR_U) TPR
    (weight_table_PR m t1 ES).
  lookup_key m "UI" EUI.
  lookup_weight m "UI" EUI V31_UI TUI (eq_refl : weight_table m "UI" = Some V31_UI).
  lookup_key m "C" EC.
  lookup_weight m "C" EC V31_CIA TC (eq_refl : weight_table m "C" = Some V31_CIA).
  lookup_key m "I" EI.
  lookup_weight m "I" EI V31_CIA TI (eq_refl : weight_table m "I" = Some V31_CIA).
  lookup_key m "A" EA.
  lookup_weight m "A" EA V31_CIA TA (eq_refl : weight_table m "A" = Some V31_CIA).
  left. eexists. split; [reflexivity |].
  intros k Hoff. pose proof Hoff as [Hk _]. apply required_elems in Hk.
  revert Hoff.
  destruct Hk as [-> | [-> | [-> | [-> | [-> | [-> | [-> | ->]]]]]]].
  - exact (not_offending m "AV" _ _ _ EAV eq_refl TAV).
  - exact (not_offending m "AC" _ _ _ EAC eq_refl TAC).
  - exact (not_offending m "PR" _ _ _ EPR (weight_table_PR m _ ES) TPR).
  - exact (not_offending m "UI" _ _ _ EUI eq_refl TUI).
  - intros [_ H]. rewrite ES in H. exact H.
  - exact (not_offending m "C" _ _ _ EC eq_refl TC).
  - exact (not_offending m "I" _ _ _ EI eq_refl TI).
  - exact (not_offending m "A" _ _ _ EA eq_refl TA).
Qed.

(** The value of S is compared, not looked up: a scope that is neither U
    nor C is not rejected; it takes the privileges weight of the unchanged
    table and the impact and the scaling of the changed scope. *)
Lemma cvss31_base_odd_scope :
  cvss31_lookup odd_scope
  = Ok (Weights 0.85 0.77 "X" 0.62 0.85 0.22 0.00 0.00)%float
  ∧ cvss31_base odd_scope = Ok 4.7%float.
Proof. split; vm_compute; reflexivity. Qed.

End Validation.

Section ClaimsValidation.
Import V31.

(** C4, as the code has it: when a required key is absent, or the value of
    a weighted key is not in its table, [cvss31_base] raises the
    invalid-metric error built from the [KeyError] of an offending key,
    which carries the abbreviation when the key is absent and the value
    token when the value is not recognised; no score is returned. *)
Theorem cvss31_base_invalid m :
  (∃ k, offending m k) →
  ∃ k, offending m k ∧ cvss31_base m = Raise (InvalidMetric (reported m k)).
Proof.
  intros [k0 H0]. unfold cvss31_base.
  destruct (cvss31_lookup_cases m) as [(w & _ & Hnone) | (k & Hk & ->)].
  - destruct (Hnone k0 H0).
  - now exists k.
Qed.

Lemma cvss31_base_invalid_witness :
  ∃ k, offending bad_AV k ∧ cvss31_base bad_AV = Raise (InvalidMetric (reported bad_AV k)).
Proof.
  apply (cvss31_base_invalid bad_AV). exists "AV".
  split; [apply required_elems; auto | reflexivity].
Defined.

(** C4, as it is stated, does not hold: in [bad_AV] the metric AV has the
    unrecognised value X, and the error names X, which is no metric of the
    map, not AV. *)
Lemma cvss31_base_names_value :
  offending bad_AV "AV"
  ∧ cvss31_base bad_AV = Raise (InvalidMetric "X")
  ∧ ¬ (∃ k, offending bad_AV k ∧ cvss31_base bad_AV = Raise (InvalidMetric k)).
Proof.
  assert (E : cvss31_base bad_AV = Raise (InvalidMetric "X")) by reflexivity.
  split; [| split; [exact E |]].
  - split; [apply required_elems; auto | reflexivity].
  - intros (k & [Hk _] & Hres). rewrite E in Hres.
    assert (k = "X") as -> by congruence.
    apply required_elems in Hk.
    destruct Hk as [H | [H | [H | [H | [H | [H | [H | H]]]]]]]; discriminate H.
Qed.

Lemma SA_required : "SA" ∈ required40.
Proof. unfold required40. rewrite !elem_of_cons. tauto. Qed.

(** C3, as the code has it: on a map that lacks a required v4.0 key,
    [cvss40_base] first needs the import of the package to succeed, and
    raises the provider-unavailable error when it does not; when it does,
    it raises the missing-metrics error with exactly the absent required
    keys, whatever the package would compute. *)
Theorem cvss40_base_missing cvss m :
  (∃ k, k ∈ required40 ∧ m !! k = None) →
  match cvss with
  | inl cause => cvss40_base cvss m = Raise (ProviderUnavailable cause)
  | inr _ =>
      ∃ missing, cvss40_base cvss m = Raise (MissingMetrics missing)
                 ∧ ∀ k, k ∈ missing ↔ k ∈ required40 ∧ m !! k = None
  end.
Proof.
  intros (k0 & Hk0 & E0). destruct cvss as [cause | CVSS4]; [reflexivity |].
  unfold cvss40_base.
  set (absent := fun k : string => match m !! k with None => true | Some _ => false end).
  assert (Hmem : ∀ k, k ∈ List.filter absent required40 ↔ k ∈ required40 ∧ m !! k = None).
  { intros k. rewrite !list_elem_of_In, filter_In. unfold absent.
    destruct (m !! k); intuition congruence. }
  destruct (List.filter absent required40) as [| k1 missing] eqn:Hf.
  - pose proof (proj2 (Hmem k0) (conj Hk0 E0)) as Hin.
    now apply elem_of_nil in Hin.
  - exists (k1 :: missing). split; [reflexivity | exact Hmem].
Qed.

Lemma cvss40_base_missing_witness :
  ∃ missing, cvss40_base (inr (fun _ => Ok 9.3%float)) no_SA
             = Raise (MissingMetrics missing)
             ∧ ∀ k, k ∈ missing ↔ k ∈ required40 ∧ no_SA !! k = None.
Proof.
  apply (cvss40_base_missing (inr (fun _ => Ok 9.3%float)) no_SA).
  exists "SA". split; [exact SA_required | reflexivity].
Defined.

(** C3, as it is stated, does not hold: without the package the map
    without SA gets the provider-unavailable error, not the missing-metrics
    error. *)
Lemma cvss40_base_imports_first :
  "SA" ∈ required40 ∧ no_SA !! "SA" = None
  ∧ cvss40_base no_cvss no_SA = Raise (ProviderUnavailable "No module named 'cvss'")
  ∧ ∀ missing, cvss40_base no_cvss no_SA ≠ Raise (MissingMetrics missing).
Proof.
  split; [exact SA_required | split; [reflexivity | split; [reflexivity |]]].
  intros missing H. discriminate H.
Qed.

End ClaimsValidation.

(** * Further properties *)

(** ** Whitespace around the vector *)

Section Whitespace.

Lemma rstrip_spaces post :
  Str.all Str.isspace post = true → Str.rstrip post = EmptyString.
Proof.
  induction post as [| c post IH]; [reflexivity |].
  cbn [Str.all Str.rstrip]. intros H. apply andb_prop in H as [Hc Hpost].
  now rewrite (IH Hpost), Hc.
Qed.

Lemma lstrip_only_spaces post :
  Str.all Str.isspace post = true → Str.lstrip post = EmptyString.
Proof.
  induction post as [| c post IH]; [reflexivity |].
  cbn [Str.all Str.lstrip]. intros H. apply andb_prop in H as [Hc Hpost].
  now rewrite Hc, (IH Hpost).
Qed.

Lemma lstrip_spaces pre s :
  Str.all Str.isspace pre = true → Str.lstrip (pre ++ s) = Str.lstrip s.
Proof.
  induction pre as [| c pre IH]; [reflexivity |].
  cbn [Str.all]. intros H. apply andb_prop in H as [Hc Hpre].
  change (String c pre ++ s) with (String c (pre ++ s)).
  cbn [Str.lstrip]. now rewrite Hc, (IH Hpre).
Qed.

Lemma rstrip_app_spaces s post :
  Str.all Str.isspace post = true → Str.rstrip (s ++ post) = Str.rstrip s.
Proof.
  intros H. induction s as [| c s IH].
  - now apply rstrip_spaces.
  - change (String c s ++ post) with (String c (s ++ post)).
    cbn [Str.rstrip]. now rewrite IH.
Qed.

Lemma lstrip_app s t :
  Str.lstrip (s ++ t) =
  match Str.lstrip s with
  | EmptyString => Str.lstrip t
  | r => r ++ t
  end.
Proof.
  induction s as [| c s IH]; [reflexivity |].
  change (String c s ++ t) with (String c (s ++ t)).
  cbn [Str.lstrip]. destruct (Str.isspace c); [exact IH | reflexivity].
Qed.

Lemma strip_padding pre s post :
  Str.all Str.isspace pre = true → Str.all Str.isspace post = true →
  Str.strip (pre ++ s ++ post) = Str.strip s.
Proof.
  intros Hpre Hpost. unfold Str.strip.
  rewrite (lstrip_spaces pre _ Hpre), lstrip_app.
  destruct (Str.lstrip s) as [| c r] eqn:E.
  - now rewrite (lstrip_only_spaces post Hpost).
  - now apply rstrip_app_spaces.
Qed.

(** X1: white space before and after the vector string changes neither
    what [parse_vector] returns nor what [compute_from_vector] returns. *)
Theorem parse_vector_padding cvss pre s post :
  Str.all Str.isspace pre = true → Str.all Str.isspace post = true →
  parse_vector (pre ++ s ++ post) = parse_vector s
  ∧ compute_from_vector cvss (pre ++ s ++ post) = compute_from_vector cvss s.
Proof.
  intros Hpre Hpost.
  assert (E : parse_vector (pre ++ s ++ post) = parse_vector s).
  { unfold parse_vector. now rewrite (strip_padding pre s post Hpre Hpost). }
  split; [exact E |]. unfold compute_from_vector. now rewrite E.
Qed.

Lemma parse_vector_padding_witness :
  parse_vector ("  " ++ twice_AV ++ " ") = parse_vector twice_AV.
Proof.
  apply (proj1 (parse_vector_padding no_cvss "  " twice_AV " " eq_refl eq_refl)).
Defined.

End Whitespace.

(** ** What the parser accepts and what the map holds *)

Section Parser.

Lemma ver_char_not_slash c : Re.ver_char c = true → Ascii.eqb c "/" = false.
Proof.
  intros H. destruct (Ascii.eqb c "/") eqn:E; [| reflexivity].
  apply Ascii.eqb_eq in E. subst c. discriminate H.
Qed.

Lemma contains_app sep a b :
  Str.contains sep (a ++ b) = Str.contains sep a || Str.contains sep b.
Proof.
  induction a as [| c a IH]; [reflexivity |].
  change (String c a ++ b) with (String c (a ++ b)). cbn [Str.contains].
  destruct (Ascii.eqb c sep); [reflexivity | exact IH].
Qed.

Lemma contains_ver_chars ver :
  Str.all Re.ver_char ver = true → Str.contains "/" ver = false.
Proof.
  induction ver as [| c ver IH]; [reflexivity |].
  cbn [Str.all Str.contains]. intros H. apply andb_prop in H as [Hc Hver].
  now rewrite (ver_char_not_slash c Hc), (IH Hver).
Qed.

(** The group the pattern captures is a non-empty run of the class, and a
    slash follows it in the text. *)
Lemma run_slash_sound s g :
  Re.run_slash s = Some g →
  g ≠ EmptyString ∧ Str.all Re.ver_char g = true
  ∧ ∃ rest, s = g ++ String "/" rest.
Proof.
  revert g. induction s as [| c s IH]; intros g; [discriminate |].
  rewrite run_slash_cons.
  destruct (Re.ver_char c) eqn:Hc; [| discriminate].
  destruct (Re.run_slash s) as [g' |] eqn:Hs.
  - intros [= <-]. destruct (IH g' eq_refl) as (_ & Hall & rest & ->).
    split; [discriminate |]. split; [cbn [Str.all]; now rewrite Hc, Hall |].
    now exists rest.
  - destruct s as [| d s']; [discriminate |]. cbn [Re.next_is].
    destruct (Ascii.eqb d "/") eqn:Hd; [| discriminate].
    apply Ascii.eqb_eq in Hd as ->. intros [= <-].
    split; [discriminate |]. split; [cbn [Str.all]; now rewrite Hc |].
    now exists s'.
Qed.

Lemma after_prefix_Some p s r : Re.after_prefix p s = Some r → s = p ++ r.
Proof.
  revert s. induction p as [| a p IH]; intros s.
  - now intros [= ->].
  - destruct s as [| b s]; [discriminate |]. cbn [Re.after_prefix].
    destruct (Ascii.eqb a b) eqn:E; [| discriminate].
    apply Ascii.eqb_eq in E as ->. intros H.
    change (String b p ++ r) with (String b (p ++ r)). now rewrite <- (IH s H).
Qed.

(** [split] cuts at the first separator. *)
Lemma split_app_sep sep a b :
  Str.contains sep a = false →
  Str.split sep (a ++ String sep b) = a :: Str.split sep b.
Proof.
  induction a as [| c a IH].
  - intros _. change (EmptyString ++ String sep b) with (String sep b).
    cbn [Str.split]. now rewrite Ascii.eqb_refl.
  - cbn [Str.contains]. destruct (Ascii.eqb c sep) eqn:E; [discriminate |].
    intros H. change (String c a ++ String sep b) with (String c (a ++ String sep b)).
    cbn [Str.split]. now rewrite E, (IH H).
Qed.

(** No segment of a split contains the separator. *)
Lemma split_segments sep s p : p ∈ Str.split sep s → Str.contains sep p = false.
Proof.
  revert p. induction s as [| c s IH]; intros p; cbn [Str.split].
  - intros H. apply list_elem_of_singleton in H as ->. reflexivity.
  - destruct (Ascii.eqb c sep) eqn:E.
    + intros H. apply elem_of_cons in H as [-> | H]; [reflexivity | now apply IH].
    + destruct (Str.split sep s) as [| seg segs].
      * intros H. apply list_elem_of_singleton in H as ->.
        cbn [Str.contains]. now rewrite E.
      * intros H. apply elem_of_cons in H as [-> | H].
        -- cbn [Str.contains]. rewrite E. apply IH. now left.
        -- apply IH. now right.
Qed.

(** A stripped string of the accepted form is parsed. *)
Lemma parse_vector_intro raw ver rest :
  Str.strip raw = "CVSS:" ++ ver ++ "/" ++ rest →
  ver ≠ EmptyString → Str.all Re.ver_char ver = true →
  parse_vector raw = Ok (ver, parse_parts (Str.split "/" rest) ∅).
Proof.
  intros Hraw Hne Hall. unfold parse_vector, Re.match_version.
  rewrite Hraw, startswith_app, after_prefix_app. cbn [negb].
  destruct ver as [| a run]; [congruence |].
  change (String a run ++ "/" ++ rest) with (String a run ++ String "/" rest).
  rewrite (run_slash_terminated a run rest Hall).
  change ("CVSS:" ++ String a run ++ String "/" rest)
    with (String "C" (String "V" (String "S" (String "S" (String ":"
            (String a run ++ String "/" rest)))))).
  cbn [Str.split Ascii.eqb Bool.eqb].
  now rewrite (split_app_sep "/" (String a run) rest (contains_ver_chars _ Hall)).
Qed.

(** X2: [parse_vector] succeeds exactly on the strings that, stripped, are
    CVSS: followed by a non-empty run of digits and dots, a slash and a
    rest; the version is that run and the map is read from the segments of
    the rest. *)
Theorem parse_vector_Ok_iff raw ver m :
  parse_vector raw = Ok (ver, m) ↔
  ∃ rest,
    Str.strip raw = "CVSS:" ++ ver ++ "/" ++ rest
    ∧ ver ≠ EmptyString ∧ Str.all Re.ver_char ver = true
    ∧ m = parse_parts (Str.split "/" rest) ∅.
Proof.
  split.
  - intros H. apply parse_vector_Ok in H as [Hver ->].
    unfold Re.match_version in Hver.
    destruct (Re.after_prefix "CVSS:" (Str.strip raw)) as [r |] eqn:Hpre;
      [| discriminate].
    apply after_prefix_Some in Hpre.
    apply run_slash_sound in Hver as (Hne & Hall & rest & ->).
    exists rest. rewrite Hpre. split; [reflexivity |].
    split; [exact Hne |]. split; [exact Hall |].
    change ("CVSS:" ++ ver ++ String "/" rest)
      with (String "C" (String "V" (String "S" (String "S" (String ":"
              (ver ++ String "/" rest)))))).
    cbn [Str.split Ascii.eqb Bool.eqb].
    now rewrite (split_app_sep "/" ver rest (contains_ver_chars ver Hall)).
  - intros (rest & Hraw & Hne & Hall & ->).
    now apply parse_vector_intro.
Qed.

End Parser.

Section ParserMap.

Lemma parse_parts_cons p l m :
  parse_parts (p :: l) m =
  match key_of p with
  | Some k => parse_parts l (<[k := (Str.split1 ":" p).2]> m)
  | None => parse_parts l m
  end.
Proof.
  cbn [parse_parts]. unfold key_of.
  destruct (Str.contains ":" p); cbn [negb]; [| reflexivity].
  now destruct (Str.split1 ":" p).
Qed.

(** An entry of the map the loop returns was in the map before, or is
    set by one of the segments. *)
Lemma parse_parts_sound l m0 k v :
  parse_parts l m0 !! k = Some v →
  m0 !! k = Some v
  ∨ ∃ p, p ∈ l ∧ p = k ++ String ":" v ∧ Str.contains ":" k = false.
Proof.
  revert m0. induction l as [| p l IH]; intros m0; [now left |].
  rewrite parse_parts_cons. unfold key_of.
  destruct (Str.contains ":" p) eqn:Hc.
  - intros H. destruct (IH _ H) as [H0 | (q & Hq & Hqk)].
    + destruct (split1_spec ":" p Hc) as [Hp Hk].
      apply lookup_insert_Some in H0 as [[<- <-] | [_ H0]]; [| now left].
      right. exists p. split; [now left | now split].
    + right. exists q. split; [now right | exact Hqk].
  - intros H. destruct (IH _ H) as [H0 | (q & Hq & Hqk)]; [now left |].
    right. exists q. split; [now right | exact Hqk].
Qed.

(** X3: every entry [k], [v] of the map [parse_vector] returns comes from a
    segment [k:v] of the stripped string, after the version; the key has no
    colon, and neither key nor value has a slash. *)
Theorem parse_vector_entries raw ver m k v :
  parse_vector raw = Ok (ver, m) → m !! k = Some v →
  (k ++ ":" ++ v) ∈ tail (Str.split "/" (Str.strip raw))
  ∧ Str.contains ":" k = false
  ∧ Str.contains "/" k = false ∧ Str.contains "/" v = false.
Proof.
  intros Hparse Hk. apply parse_vector_Ok in Hparse as [_ ->].
  apply parse_parts_sound in Hk as [Hk | (p & Hp & -> & Hcolon)].
  - rewrite lookup_empty in Hk. discriminate.
  - assert (Hseg : (k ++ String ":" v) ∈ Str.split "/" (Str.strip raw)).
    { destruct (Str.split "/" (Str.strip raw)); [exact Hp | now right]. }
    apply split_segments in Hseg. rewrite contains_app in Hseg.
    apply orb_false_elim in Hseg as [Hk1 Hv1]. cbn [Str.contains] in Hv1.
    destruct (Ascii.eqb ":" "/"); [discriminate |]. auto.
Qed.

Lemma parse_vector_entries_witness :
  ("AV" ++ ":" ++ "A") ∈ tail (Str.split "/" (Str.strip twice_AV))
  ∧ Str.contains ":" "AV" = false
  ∧ Str.contains "/" "AV" = false ∧ Str.contains "/" "A" = false.
Proof.
  apply (parse_vector_entries twice_AV "3.1" (V31.metrics twice_AV_vector) "AV" "A").
  - vm_compute. reflexivity.
  - reflexivity.
Defined.

(** X4: the map the loop builds does not depend on the order of the
    segments, as long as no key is set twice. *)
Theorem parse_parts_order l l' m :
  l ≡ₚ l' → NoDup (omap key_of l) → parse_parts l m = parse_parts l' m.
Proof.
  intros Hperm. revert m.
  induction Hperm as [| p l l' _ IH | p q l | l l' l'' Hp1 IH1 Hp2 IH2];
    intros m Hnd.
  - reflexivity.
  - rewrite !parse_parts_cons. cbn [omap list_omap] in Hnd.
    destruct (key_of p) as [k |].
    + apply IH. now apply NoDup_cons in Hnd as [_ Hnd].
    + now apply IH.
  - rewrite !parse_parts_cons. cbn [omap list_omap] in Hnd.
    destruct (key_of p) as [kp |] eqn:Ep, (key_of q) as [kq |] eqn:Eq;
      rewrite ?parse_parts_cons, ?Ep, ?Eq; try reflexivity.
    rewrite insert_insert_ne; [reflexivity |].
    apply NoDup_cons in Hnd as [Hnotin _]. intros ->. apply Hnotin. now left.
  - rewrite (IH1 m Hnd). apply IH2. now rewrite <- Hp1.
Qed.

Lemma parse_parts_order_witness :
  parse_parts ["AV:N"; "S:U"; "junk"; "AC:L"] ∅
  = parse_parts ["AC:L"; "AV:N"; "junk"; "S:U"] ∅.
Proof.
  apply parse_parts_order.
  - apply (NoDup_Permutation _ _); [| | ].
    + repeat constructor; vm_compute; intros H;
        repeat (apply elem_of_cons in H as [H | H]; [discriminate H |]);
        now apply elem_of_nil in H.
    + repeat constructor; vm_compute; intros H;
        repeat (apply elem_of_cons in H as [H | H]; [discriminate H |]);
        now apply elem_of_nil in H.
    + intros x. rewrite !elem_of_cons, !elem_of_nil. tauto.
  - vm_compute. repeat constructor; intros H;
      repeat (apply elem_of_cons in H as [H | H]; [discriminate H |]);
      now apply elem_of_nil in H.
Defined.

End ParserMap.

(** ** The scores of the valid vectors *)

Section Scores.
Import V31 Severity.

Lemma cvss31_base_on_metrics m v :
  holds m v → cvss31_base m = cvss31_base (metrics v).
Proof.
  intros H. unfold cvss31_base. now rewrite (cvss31_lookup_agree m (metrics v) H).
Qed.

Lemma tenths_correct v : cvss31_base (metrics v) = tenth (Table.lookup v).
Proof.
  unfold cvss31_base.
  rewrite (cvss31_lookup_holds (metrics v) v (fun k _ => eq_refl)).
  cbn [w_av w_ac w_scope w_pr w_ui w_c w_i w_a].
  destruct v as [av ac pr ui s c i a]. cbn [AV AC PR UI S C I A].
  destruct s, c, i, a;
    match goal with
    | |- (?X ≫= _) = _ =>
        let r := eval vm_compute in X in
        replace X with r by (vm_compute; reflexivity)
    end;
    rewrite bind_Ok;
    destruct av, ac, pr, ui; vm_compute; reflexivity.
Qed.

Lemma tenths_range v : (0 ≤ Table.lookup v ≤ 100)%Z.
Proof.
  destruct v as [av ac pr ui s c i a].
  destruct av, ac, pr, ui, s, c, i, a; vm_compute; split; discriminate.
Qed.

End Scores.

(** ** Checking all valid vectors and all scores at once *)

Section Exhaustive.
Import V31 Severity.

Lemma vectors_complete v : v ∈ Table.vectors.
Proof.
  destruct v as [av ac pr ui s c i a]. unfold Table.vectors.
  apply list_elem_of_bind. exists av. split; [| destruct av; set_solver].
  apply list_elem_of_bind. exists ac. split; [| destruct ac; set_solver].
  apply list_elem_of_bind. exists pr. split; [| destruct pr; set_solver].
  apply list_elem_of_bind. exists ui. split; [| destruct ui; set_solver].
  apply list_elem_of_bind. exists s. split; [| destruct s; set_solver].
  apply list_elem_of_bind. exists c. split; [| destruct c; set_solver].
  apply list_elem_of_bind. exists i. split; [| destruct i; set_solver].
  apply list_elem_of_bind. exists a. split; [| destruct a; set_solver].
  now left.
Qed.

Lemma for_all_vectors (P : vector → bool) :
  forallb P Table.vectors = true → ∀ v, P v = true.
Proof.
  intros H v. rewrite forallb_forall in H. apply H.
  apply list_elem_of_In, vectors_complete.
Qed.

(** the tenths 0, 1, ..., 100 *)
Lemma for_all_tenths (P : Z → bool) :
  forallb P (map Z.of_nat (seq 0 101)) = true →
  ∀ n, (0 ≤ n ≤ 100)%Z → P n = true.
Proof.
  intros H n Hn. rewrite forallb_forall in H. apply H.
  apply in_map_iff. exists (Z.to_nat n). split; [lia |].
  apply in_seq. lia.
Qed.

End Exhaustive.

(** ** Order of the scores *)

Section Order.
Import V31 Severity.

Lemma leb_result_true a b :
  leb_result a b = true → ∃ x y, a = Ok x ∧ b = Ok y ∧ (x <=? y)%float = true.
Proof.
  destruct a as [x |], b as [y |]; try discriminate. intros H. now exists x, y.
Qed.

(** More tenths are not a smaller score. *)
Lemma tenth_mono n n' :
  (0 ≤ n)%Z → (n ≤ n')%Z → (n' ≤ 100)%Z →
  ∃ s s', tenth n = Ok s ∧ tenth n' = Ok s' ∧ (s <=? s')%float = true.
Proof.
  intros H0 Hle H100.
  pose proof (for_all_tenths
    (fun a => forallb (fun b => implb (a <=? b)%Z (leb_result (tenth a) (tenth b)))
                      (map Z.of_nat (seq 0 101)))) as Hall.
  assert (Hn : (0 ≤ n ≤ 100)%Z) by lia.
  specialize (Hall ltac:(vm_compute; reflexivity) n Hn).
  pose proof (for_all_tenths
    (fun b => implb (n <=? b)%Z (leb_result (tenth n) (tenth b)))) as Hn'.
  assert (Hn'' : (0 ≤ n' ≤ 100)%Z) by lia.
  specialize (Hn' Hall n' Hn''). cbv beta in Hn'.
  apply Z.leb_le in Hle. rewrite Hle in Hn'. cbn [implb] in Hn'.
  now apply leb_result_true.
Qed.

Ltac check_vectors P v :=
  let H := fresh "Hcheck" in
  pose proof (for_all_vectors P ltac:(vm_compute; reflexivity) v) as H;
  cbv beta in H.

Lemma lookup_mono_AV x ac pr ui s c i a x' :
  (av_rank x ≤ av_rank x')%nat →
  (Table.lookup (Vector x ac pr ui s c i a)
   ≤ Table.lookup (Vector x' ac pr ui s c i a))%Z.
Proof.
  intros Hle.
  check_vectors (fun v => forallb (fun y =>
      implb (av_rank (AV v) <=? av_rank y)%nat
        (Table.lookup v <=? Table.lookup (Vector y (AC v) (PR v) (UI v) (S v) (C v) (I v) (A v)))%Z)
      [AV_P; AV_L; AV_A; AV_N]) (Vector x ac pr ui s c i a).
  rewrite forallb_forall in Hcheck.
  specialize (Hcheck x' ltac:(destruct x'; simpl; tauto)). cbn [AV AC PR UI S C I A] in Hcheck.
  apply Nat.leb_le in Hle. rewrite Hle in Hcheck. now apply Z.leb_le.
Qed.

Lemma lookup_mono_AC av x pr ui s c i a x' :
  (ac_rank x ≤ ac_rank x')%nat →
  (Table.lookup (Vector av x pr ui s c i a)
   ≤ Table.lookup (Vector av x' pr ui s c i a))%Z.
Proof.
  intros Hle.
  check_vectors (fun v => forallb (fun y =>
      implb (ac_rank (AC v) <=? ac_rank y)%nat
        (Table.lookup v <=? Table.lookup (Vector (AV v) y (PR v) (UI v) (S v) (C v) (I v) (A v)))%Z)
      [AC_H; AC_L]) (Vector av x pr ui s c i a).
  rewrite forallb_forall in Hcheck.
  specialize (Hcheck x' ltac:(destruct x'; simpl; tauto)). cbn [AV AC PR UI S C I A] in Hcheck.
  apply Nat.leb_le in Hle. rewrite Hle in Hcheck. now apply Z.leb_le.
Qed.

Lemma lookup_mono_PR av ac x ui s c i a x' :
  (pr_rank x ≤ pr_rank x')%nat →
  (Table.lookup (Vector av ac x ui s c i a)
   ≤ Table.lookup (Vector av ac x' ui s c i a))%Z.
Proof.
  intros Hle.
  check_vectors (fun v => forallb (fun y =>
      implb (pr_rank (PR v) <=? pr_rank y)%nat
        (Table.lookup v <=? Table.lookup (Vector (AV v) (AC v) y (UI v) (S v) (C v) (I v) (A v)))%Z)
      [PR_H; PR_L; PR_N]) (Vector av ac x ui s c i a).
  rewrite forallb_forall in Hcheck.
  specialize (Hcheck x' ltac:(destruct x'; simpl; tauto)). cbn [AV AC PR UI S C I A] in Hcheck.
  apply Nat.leb_le in Hle. rewrite Hle in Hcheck. now apply Z.leb_le.
Qed.

Lemma lookup_mono_UI av ac pr x s c i a x' :
  (ui_rank x ≤ ui_rank x')%nat →
  (Table.lookup (Vector av ac pr x s c i a)
   ≤ Table.lookup (Vector av ac pr x' s c i a))%Z.
Proof.
  intros Hle.
  check_vectors (fun v => forallb (fun y =>
      implb (ui_rank (UI v) <=? ui_rank y)%nat
        (Table.lookup v <=? Table.lookup (Vector (AV v) (AC v) (PR v) y (S v) (C v) (I v) (A v)))%Z)
      [UI_R; UI_N]) (Vector av ac pr x s c i a).
  rewrite forallb_forall in Hcheck.
  specialize (Hcheck x' ltac:(destruct x'; simpl; tauto)). cbn [AV AC PR UI S C I A] in Hcheck.
  apply Nat.leb_le in Hle. rewrite Hle in Hcheck. now apply Z.leb_le.
Qed.

Lemma lookup_mono_S av ac pr ui x c i a x' :
  (scope_rank x ≤ scope_rank x')%nat →
  (Table.lookup (Vector av ac pr ui x c i a)
   ≤ Table.lookup (Vector av ac pr ui x' c i a))%Z.
Proof.
  intros Hle.
  check_vectors (fun v => forallb (fun y =>
      implb (scope_rank (S v) <=? scope_rank y)%nat
        (Table.lookup v <=? Table.lookup (Vector (AV v) (AC v) (PR v) (UI v) y (C v) (I v) (A v)))%Z)
      [Unchanged; Changed]) (Vector av ac pr ui x c i a).
  rewrite forallb_forall in Hcheck.
  specialize (Hcheck x' ltac:(destruct x'; simpl; tauto)). cbn [AV AC PR UI S C I A] in Hcheck.
  apply Nat.leb_le in Hle. rewrite Hle in Hcheck. now apply Z.leb_le.
Qed.

Lemma lookup_mono_C av ac pr ui s x i a x' :
  (cia_rank x ≤ cia_rank x')%nat →
  (Table.lookup (Vector av ac pr ui s x i a)
   ≤ Table.lookup (Vector av ac pr ui s x' i a))%Z.
Proof.
  intros Hle.
  check_vectors (fun v => forallb (fun y =>
      implb (cia_rank (C v) <=? cia_rank y)%nat
        (Table.lookup v <=? Table.lookup (Vector (AV v) (AC v) (PR v) (UI v) (S v) y (I v) (A v)))%Z)
      [None_; Low; High]) (Vector av ac pr ui s x i a).
  rewrite forallb_forall in Hcheck.
  specialize (Hcheck x' ltac:(destruct x'; simpl; tauto)). cbn [AV AC PR UI S C I A] in Hcheck.
  apply Nat.leb_le in Hle. rewrite Hle in Hcheck. now apply Z.leb_le.
Qed.

Lemma lookup_mono_I av ac pr ui s c x a x' :
  (cia_rank x ≤ cia_rank x')%nat →
  (Table.lookup (Vector av ac pr ui s c x a)
   ≤ Table.lookup (Vector av ac pr ui s c x' a))%Z.
Proof.
  intros Hle.
  check_vectors (fun v => forallb (fun y =>
      implb (cia_rank (I v) <=? cia_rank y)%nat
        (Table.lookup v <=? Table.lookup (Vector (AV v) (AC v) (PR v) (UI v) (S v) (C v) y (A v)))%Z)
      [None_; Low; High]) (Vector av ac pr ui s c x a).
  rewrite forallb_forall in Hcheck.
  specialize (Hcheck x' ltac:(destruct x'; simpl; tauto)). cbn [AV AC PR UI S C I A] in Hcheck.
  apply Nat.leb_le in Hle. rewrite Hle in Hcheck. now apply Z.leb_le.
Qed.

Lemma lookup_mono_A av ac pr ui s c i x x' :
  (cia_rank x ≤ cia_rank x')%nat →
  (Table.lookup (Vector av ac pr ui s c i x)
   ≤ Table.lookup (Vector av ac pr ui s c i x'))%Z.
Proof.
  intros Hle.
  check_vectors (fun v => forallb (fun y =>
      implb (cia_rank (A v) <=? cia_rank y)%nat
        (Table.lookup v <=? Table.lookup (Vector (AV v) (AC v) (PR v) (UI v) (S v) (C v) (I v) y))%Z)
      [None_; Low; High]) (Vector av ac pr ui s c i x).
  rewrite forallb_forall in Hcheck.
  specialize (Hcheck x' ltac:(destruct x'; simpl; tauto)). cbn [AV AC PR UI S C I A] in Hcheck.
  apply Nat.leb_le in Hle. rewrite Hle in Hcheck. now apply Z.leb_le.
Qed.

Lemma lookup_mono v v' : Severity.le v v' → (Table.lookup v ≤ Table.lookup v')%Z.
Proof.
  destruct v as [av ac pr ui s c i a], v' as [av' ac' pr' ui' s' c' i' a'].
  unfold Severity.le. cbn [AV AC PR UI S C I A].
  intros (Hav & Hac & Hpr & Hui & Hs & Hc & Hi & Ha).
  pose proof (lookup_mono_AV av ac pr ui s c i a av' Hav).
  pose proof (lookup_mono_AC av' ac pr ui s c i a ac' Hac).
  pose proof (lookup_mono_PR av' ac' pr ui s c i a pr' Hpr).
  pose proof (lookup_mono_UI av' ac' pr' ui s c i a ui' Hui).
  pose proof (lookup_mono_S av' ac' pr' ui' s c i a s' Hs).
  pose proof (lookup_mono_C av' ac' pr' ui' s' c i a c' Hc).
  pose proof (lookup_mono_I av' ac' pr' ui' s' c' i a i' Hi).
  pose proof (lookup_mono_A av' ac' pr' ui' s' c' i' a a' Ha).
  lia.
Qed.

(** X5: a valid vector that is at least as severe as another in every
    metric does not score less. *)
Theorem cvss31_base_monotone m v m' v' :
  holds m v → holds m' v' → Severity.le v v' →
  ∃ s s', cvss31_base m = Ok s ∧ cvss31_base m' = Ok s'
          ∧ (s <=? s')%float = true.
Proof.
  intros Hm Hm' Hle.
  rewrite (cvss31_base_on_metrics m v Hm), (cvss31_base_on_metrics m' v' Hm').
  rewrite !tenths_correct.
  apply tenth_mono.
  - apply tenths_range.
  - now apply lookup_mono.
  - apply tenths_range.
Qed.

Lemma cvss31_base_monotone_witness :
  ∃ s s', cvss31_base (metrics harmless_vector) = Ok s
          ∧ cvss31_base sample_map = Ok s' ∧ (s <=? s')%float = true.
Proof.
  apply (cvss31_base_monotone (metrics harmless_vector) harmless_vector
           sample_map sample_vector harmless_holds sample_holds).
  unfold Severity.le. cbn. lia.
Defined.

End Order.

(** ** The shape of every result of the v3.1 engine *)

Section Shape.
Import V31 Formula Severity.

Lemma weight_AV t x : V31_AV !! t = Some x → ∃ a, x = av_weight a.
Proof.
  unfold V31_AV. rewrite !lookup_insert_Some, lookup_singleton_Some.
  intros [[_ <-] | [_ [[_ <-] | [_ [[_ <-] | [_ [_ <-]]]]]]];
    [exists AV_N | exists AV_A | exists AV_L | exists AV_P]; reflexivity.
Qed.

Lemma weight_AC t x : V31_AC !! t = Some x → ∃ a, x = ac_weight a.
Proof.
  unfold V31_AC. rewrite !lookup_insert_Some, lookup_singleton_Some.
  intros [[_ <-] | [_ [_ <-]]]; [exists AC_L | exists AC_H]; reflexivity.
Qed.

Lemma weight_PR (changed : bool) t x :
  (if changed then V31_PR_C else V31_PR_U) !! t = Some x →
  ∃ a, x = pr_weight (if changed then Changed else Unchanged) a.
Proof.
  destruct changed; unfold V31_PR_C, V31_PR_U;
    rewrite !lookup_insert_Some, lookup_singleton_Some;
    intros [[_ <-] | [_ [[_ <-] | [_ [_ <-]]]]];
    [exists PR_N | exists PR_L | exists PR_H | exists PR_N | exists PR_L | exists PR_H];
    reflexivity.
Qed.

Lemma weight_UI t x : V31_UI !! t = Some x → ∃ a, x = ui_weight a.
Proof.
  unfold V31_UI. rewrite !lookup_insert_Some, lookup_singleton_Some.
  intros [[_ <-] | [_ [_ <-]]]; [exists UI_N | exists UI_R]; reflexivity.
Qed.

Lemma weight_CIA t x : V31_CIA !! t = Some x → ∃ a, x = cia_weight a.
Proof.
  unfold V31_CIA. rewrite !lookup_insert_Some, lookup_singleton_Some.
  intros [[_ <-] | [_ [[_ <-] | [_ [_ <-]]]]];
    [exists High | exists Low | exists None_]; reflexivity.
Qed.

Lemma getitem_Ok {V : Type} (d : gmap string V) k v :
  getitem d k = Ok v → d !! k = Some v.
Proof.
  unfold getitem. destruct (d !! k) as [x |]; [| discriminate].
  intros H. now rewrite (Ok_inj _ _ H).
Qed.

Lemma bind_Ok_inv {A B : Type} (r : result A) (f : A → result B) b :
  r ≫= f = Ok b → ∃ a, r = Ok a ∧ f a = Ok b.
Proof. destruct r as [a | e]; [| discriminate]. intros H. now exists a. Qed.

(** The weights the [try] block binds are entries of the tables. *)
Lemma cvss31_lookup_Ok m w :
  cvss31_lookup m = Ok w →
  ∃ av ac pr ui c i a,
    w = Weights (av_weight av) (ac_weight ac) (w_scope w)
          (pr_weight (if String.eqb (w_scope w) "C" then Changed else Unchanged) pr)
          (ui_weight ui) (cia_weight c) (cia_weight i) (cia_weight a).
Proof.
  unfold cvss31_lookup. intros H.
  apply bind_Ok_inv in H as (t1 & _ & H).
  apply bind_Ok_inv in H as (xav & Hav & H). apply getitem_Ok, weight_AV in Hav as [av ->].
  apply bind_Ok_inv in H as (t2 & _ & H).
  apply bind_Ok_inv in H as (xac & Hac & H). apply getitem_Ok, weight_AC in Hac as [ac ->].
  apply bind_Ok_inv in H as (scope & _ & H). cbv zeta in H.
  apply bind_Ok_inv in H as (t3 & _ & H).
  apply bind_Ok_inv in H as (xpr & Hpr & H). apply getitem_Ok, weight_PR in Hpr as [pr ->].
  apply bind_Ok_inv in H as (t4 & _ & H).
  apply bind_Ok_inv in H as (xui & Hui & H). apply getitem_Ok, weight_UI in Hui as [ui ->].
  apply bind_Ok_inv in H as (t5 & _ & H).
  apply bind_Ok_inv in H as (xc & Hc & H). apply getitem_Ok, weight_CIA in Hc as [c ->].
  apply bind_Ok_inv in H as (t6 & _ & H).
  apply bind_Ok_inv in H as (xi & Hi & H). apply getitem_Ok, weight_CIA in Hi as [i ->].
  apply bind_Ok_inv in H as (t7 & _ & H).
  apply bind_Ok_inv in H as (xa & Ha & H). apply getitem_Ok, weight_CIA in Ha as [a ->].
  apply Ok_inj in H. subst w. cbn [w_scope].
  now exists av, ac, pr, ui, c, i, a.
Qed.

(** The statements after the [try] block, on weights of the tables: a
    number of tenths between 0 and 100, whatever the two tests on the scope
    give. *)
Lemma cvss31_finish_tenths (is_U is_C : bool) av ac pr ui c i a :
  ∃ n, (0 ≤ n ≤ 100)%Z ∧
    (impact ← (if is_U then Ok (6.42 * cvss31_iss (cia_weight c) (cia_weight i) (cia_weight a))%float
               else p ← Float.pow (cvss31_iss (cia_weight c) (cia_weight i) (cia_weight a) - 0.02)%float 15;
                    Ok (7.52 * (cvss31_iss (cia_weight c) (cia_weight i) (cia_weight a) - 0.029)
                        - 3.25 * p)%float);
     roundup_1_dec
       (if (impact <=? 0)%float then 0.0%float
        else if is_U then
          Float.min (impact + cvss31_exploitability (av_weight av) (ac_weight ac)
                       (pr_weight (if is_C then Changed else Unchanged) pr) (ui_weight ui))%float
                    10.0%float
        else
          Float.min (1.08 * (impact + cvss31_exploitability (av_weight av) (ac_weight ac)
                       (pr_weight (if is_C then Changed else Unchanged) pr) (ui_weight ui)))%float
                    10.0%float))
    = tenth n.
Proof.
  destruct is_U, c, i, a;
    match goal with
    | |- ∃ n, _ ∧ (?X ≫= _) = _ =>
        let r := eval vm_compute in X in
        replace X with r by (vm_compute; reflexivity)
    end;
    rewrite bind_Ok;
    destruct is_C, av, ac, pr, ui;
    match goal with
    | |- ∃ n, _ ∧ ?e = _ =>
        let r := eval vm_compute in (Table.tenths_of e) in
        exists r; split; [split; discriminate | vm_compute; reflexivity]
    end.
Qed.

(** Once the [try] block has bound the weights, a score follows. *)
Lemma cvss31_base_scored m w :
  cvss31_lookup m = Ok w →
  ∃ n, (0 ≤ n ≤ 100)%Z ∧ cvss31_base m = tenth n.
Proof.
  intros Hw. unfold cvss31_base. rewrite Hw.
  destruct (cvss31_lookup_Ok m w Hw) as (av & ac & pr & ui & c & i & a & ->).
  cbn [w_av w_ac w_scope w_pr w_ui w_c w_i w_a].
  unfold cvss31_impact, cvss31_pre_round.
  apply (cvss31_finish_tenths _ _ av ac pr ui c i a).
Qed.

(** The two outcomes of [cvss31_base]. *)
Lemma cvss31_base_shape_cases m :
  (∃ e, cvss31_base m = Raise (InvalidMetric e))
  ∨ (∃ n, (0 ≤ n ≤ 100)%Z ∧ cvss31_base m = tenth n).
Proof.
  destruct (cvss31_lookup_cases m) as [(w & Hw & _) | (k & _ & Hk)].
  - right. exact (cvss31_base_scored m w Hw).
  - left. exists (reported m k). unfold cvss31_base. now rewrite Hk.
Qed.

End Shape.

Section Scores2.
Import V31 Formula Severity.

(** X7: a valid vector with some confidentiality, integrity or
    availability impact scores at least 0.1: only the vectors without
    impact score 0.0. *)
Theorem cvss31_base_positive m v :
  holds m v → ¬ (C v = None_ ∧ I v = None_ ∧ A v = None_) →
  ∃ s, cvss31_base m = Ok s ∧ (0.1 <=? s)%float = true.
Proof.
  intros Hm Himpact.
  rewrite (cvss31_base_on_metrics m v Hm), tenths_correct.
  assert (Hpos : (1 ≤ Table.lookup v)%Z).
  { pose proof (for_all_vectors
      (fun v => match C v, I v, A v with
                | None_, None_, None_ => true
                | _, _, _ => (1 <=? Table.lookup v)%Z
                end) ltac:(vm_compute; reflexivity) v) as H.
    cbv beta in H.
    destruct (C v), (I v), (A v); try (now apply Z.leb_le).
    now destruct Himpact. }
  pose proof (for_all_tenths
    (fun n => implb (1 <=? n)%Z (at_least_tenth (tenth n)))
    ltac:(vm_compute; reflexivity) (Table.lookup v) (tenths_range v)) as H.
  cbv beta in H. apply Z.leb_le in Hpos. rewrite Hpos in H. cbn [implb] in H.
  destruct (tenth (Table.lookup v)) as [s |]; [| discriminate].
  now exists s.
Qed.

Lemma cvss31_base_positive_witness :
  ∃ s, cvss31_base sample_map = Ok s ∧ (0.1 <=? s)%float = true.
Proof.
  apply (cvss31_base_positive sample_map sample_vector sample_holds).
  intros (H & _ & _). discriminate H.
Defined.

(** Rounding a score of whole tenths gives it back. *)
Lemma roundup_1_dec_tenth n :
  (0 ≤ n ≤ 100)%Z → ∃ s, tenth n = Ok s ∧ roundup_1_dec s = Ok s.
Proof.
  assert (Hall : ∀ k, (k < 101)%nat →
            ∃ s, tenth (Z.of_nat k) = Ok s ∧ roundup_1_dec s = Ok s).
  { intros k Hk.
    do 101 (destruct k as [| k];
            [eexists; split; [vm_compute; reflexivity | vm_compute; reflexivity] |]).
    lia. }
  intros Hn. rewrite <- (Z2Nat.id n) by lia. apply Hall. lia.
Qed.

(** X8: a score [cvss31_base] returns, on any metric map, is a fixed point
    of [roundup_1_dec]: rounding it again does not move it. *)
Theorem roundup_1_dec_score m s :
  cvss31_base m = Ok s → roundup_1_dec s = Ok s.
Proof.
  intros Hs. destruct (cvss31_base_shape_cases m) as [[e He] | (n & Hn & Hm)].
  - rewrite He in Hs. discriminate.
  - destruct (roundup_1_dec_tenth n Hn) as (s' & Hs' & Hr).
    rewrite Hm, Hs' in Hs. apply Ok_inj in Hs. now subst s'.
Qed.

Lemma roundup_1_dec_score_witness :
  roundup_1_dec 5.8%float = Ok 5.8%float.
Proof.
  apply (roundup_1_dec_score sample_map 5.8%float). vm_compute. reflexivity.
Defined.

End Scores2.

(** ** Which invalid metric is reported *)

Section FirstOffending.
Import V31.

Lemma present_of_not_offending m j :
  j ∈ required → ¬ offending m j →
  ∃ t, m !! j = Some t
       ∧ ∀ table, weight_table m j = Some table → ∃ x, table !! t = Some x.
Proof.
  intros Hj Hn. unfold offending in Hn.
  destruct (m !! j) as [t |]; [| exfalso; apply Hn; auto].
  exists t. split; [reflexivity |]. intros table Ht. rewrite Ht in Hn.
  destruct (table !! t) as [x |] eqn:E; [now exists x |].
  exfalso. apply Hn. auto.
Qed.

Lemma offending_cases m k :
  offending m k →
  m !! k = None
  ∨ ∃ t table, m !! k = Some t ∧ weight_table m k = Some table ∧ table !! t = None.
Proof.
  intros [_ H]. destruct (m !! k) as [t |]; [| now left].
  destruct (weight_table m k) as [table |]; [| destruct H].
  right. now exists t, table.
Qed.

(** the lookup of [key] and of its weight fails for an offending [key] *)
Lemma getitem_offending {A : Type} m key (T : gmap string float) (f : float → result A) :
  key ∈ required → weight_table m key = Some T → offending m key →
  (t ← getitem m key; x ← getitem T t; f x) = Raise (KeyError (reported m key)).
Proof.
  intros Hkey HT Hoff. unfold reported.
  destruct (offending_cases m key Hoff) as [E | (t & table & E & Ht & Hnone)].
  - now rewrite (getitem_None m key E), E.
  - rewrite HT in Ht. assert (table = T) as -> by congruence.
    now rewrite (getitem_Some m key t E), bind_Ok, (getitem_None T t Hnone), E.
Qed.

(** the lookup of [key] and of its weight succeeds otherwise *)
Lemma getitem_not_offending m key (T : gmap string float) :
  key ∈ required → weight_table m key = Some T → ¬ offending m key →
  ∃ x, ∀ (A : Type) (f : float → result A),
    (t ← getitem m key; x ← getitem T t; f x) = f x.
Proof.
  intros Hkey HT Hoff.
  destruct (present_of_not_offending m key Hkey Hoff) as (t & E & Hx).
  destruct (Hx T HT) as [x Ex]. exists x. intros A f.
  now rewrite (getitem_Some m key t E), bind_Ok, (getitem_Some T t x Ex), bind_Ok.
Qed.

Ltac in_required := apply required_elems; auto 10.

Ltac stage key T HT :=
  lazymatch goal with
  | Horder : _ = (?pre ++ ?k :: ?post)%list,
    Hpre : ∀ j, j ∈ ?pre → ¬ offending ?m j,
    Hk : offending ?m ?k |- _ =>
      let j := fresh "j" in
      let x := fresh "x" in
      let E := fresh "E" in
      let Hrest := fresh "Hrest" in
      destruct pre as [| j pre]; cbn [app] in Horder;
      injection Horder as <- Horder;
      [ now rewrite (getitem_offending m key T _ ltac:(in_required) HT Hk)
      | destruct (getitem_not_offending m key T ltac:(in_required) HT
                    (Hpre key ltac:(now left))) as [x E];
        rewrite E; clear E;
        assert (Hrest : ∀ j, j ∈ pre → ¬ offending m j)
          by (intros; apply Hpre; now right);
        clear Hpre; rename Hrest into Hpre ]
  end.

(** X9: when several required metrics are offending, the one reported is
    the first in the order in which the [try] block reads them: AV, AC, S,
    PR, UI, C, I, A. *)
Theorem cvss31_base_first_offending m pre k post :
  lookup_order = (pre ++ k :: post)%list →
  (∀ j, j ∈ pre → ¬ offending m j) →
  offending m k →
  cvss31_base m = Raise (InvalidMetric (reported m k)).
Proof.
  intros Horder Hpre Hk. unfold cvss31_base.
  enough (cvss31_lookup m = Raise (KeyError (reported m k))) as -> by reflexivity.
  unfold cvss31_lookup, lookup_order in *.
  stage "AV" V31_AV (eq_refl : weight_table m "AV" = Some V31_AV).
  stage "AC" V31_AC (eq_refl : weight_table m "AC" = Some V31_AC).
  (* S: read, not looked up in a table *)
  destruct pre as [| j pre]; cbn [app] in Horder; injection Horder as <- Horder.
  { destruct (offending_cases m "S" Hk) as [E | (t & table & _ & Ht & _)];
      [| discriminate Ht].
    unfold reported. now rewrite (getitem_None m "S" E), E. }
  destruct (present_of_not_offending m "S" ltac:(in_required) (Hpre "S" ltac:(now left)))
    as (scope & ES & _).
  rewrite (getitem_Some m "S" scope ES), bind_Ok. cbv zeta.
  assert (Hrest : ∀ j, j ∈ pre → ¬ offending m j) by (intros; apply Hpre; now right).
  clear Hpre. rename Hrest into Hpre.
  stage "PR" (if String.eqb scope "C" then V31_PR_C else V31_PR_U)
        (weight_table_PR m scope ES).
  stage "UI" V31_UI (eq_refl : weight_table m "UI" = Some V31_UI).
  stage "C" V31_CIA (eq_refl : weight_table m "C" = Some V31_CIA).
  stage "I" V31_CIA (eq_refl : weight_table m "I" = Some V31_CIA).
  stage "A" V31_CIA (eq_refl : weight_table m "A" = Some V31_CIA).
  destruct pre; discriminate Horder.
Qed.

Lemma cvss31_base_first_offending_witness :
  cvss31_base two_defects = Raise (InvalidMetric "Z").
Proof.
  apply (cvss31_base_first_offending two_defects ["AV"; "AC"; "S"] "PR"
           ["UI"; "C"; "I"; "A"]).
  - reflexivity.
  - intros j Hj [_ Hoff]. revert Hoff.
    repeat (apply elem_of_cons in Hj as [-> | Hj]; [vm_compute; intros H; inversion H |]).
    now apply elem_of_nil in Hj.
  - split; [apply required_elems; auto 10 | reflexivity].
Defined.

End FirstOffending.

(** ** The v4.0 hand-over *)

Section HandOver.

Lemma required40_elems k :
  k ∈ required40 ↔
  k = "AV" ∨ k = "AC" ∨ k = "AT" ∨ k = "PR" ∨ k = "UI" ∨ k = "VC" ∨ k = "VI"
  ∨ k = "VA" ∨ k = "SC" ∨ k = "SI" ∨ k = "SA".
Proof. unfold required40. rewrite !elem_of_cons, elem_of_nil. tauto. Qed.

(** With every key of [l] present nothing is missing, and the
    comprehension of line 126 gives the segments in the order of [l]. *)
Lemma filter_present (m : gmap string string) value l :
  (∀ k, k ∈ l → m !! k = Some (value k)) →
  List.filter (fun k => match m !! k with None => true | Some _ => false end) l = [].
Proof.
  induction l as [| k l IH]; intros H; [reflexivity |].
  cbn [List.filter]. rewrite (H k) by now left.
  apply IH. intros j Hj. apply H. now right.
Qed.

Lemma mapM_present (m : gmap string string) value l :
  (∀ k, k ∈ l → m !! k = Some (value k)) →
  mapM (fun k => v ← getitem m k; Ok (k ++ ":" ++ v)) l
  = Ok (map (fun k => k ++ ":" ++ value k) l).
Proof.
  induction l as [| k l IH]; intros H; [reflexivity |].
  cbn [mapM map]. rewrite (getitem_Some m k _ (H k ltac:(now left))), !bind_Ok.
  rewrite IH by (intros j Hj; apply H; now right). reflexivity.
Qed.

(** X10: on a map with the eleven required keys, and with the package,
    [cvss40_base] returns what the package computes for the vector rebuilt
    in the order AV, AC, AT, PR, UI, VC, VI, VA, SC, SI, SA, score or
    exception alike; other keys of the map play no part. *)
Theorem cvss40_base_complete CVSS4 m value :
  (∀ k, k ∈ required40 → m !! k = Some (value k)) →
  cvss40_base (inr CVSS4) m = CVSS4 (canonical40 value).
Proof.
  intros H. unfold cvss40_base, canonical40. cbv zeta.
  now rewrite (filter_present m value required40 H),
    (mapM_present m value required40 H), bind_Ok.
Qed.

Lemma cvss40_base_complete_witness :
  cvss40_base (inr (fun vector => Raise (ProviderError vector))) (<["SA" := "N"]> no_SA)
  = Raise (ProviderError "CVSS:4.0/AV:N/AC:L/AT:N/PR:N/UI:N/VC:H/VI:H/VA:H/SC:N/SI:N/SA:N").
Proof.
  rewrite (cvss40_base_complete (fun vector => Raise (ProviderError vector))
             (<["SA" := "N"]> no_SA)
             (fun k => default EmptyString ((<["SA" := "N"]> no_SA) !! k))).
  - vm_compute. reflexivity.
  - intros k Hk. apply required40_elems in Hk.
    destruct Hk as [-> | [-> | [-> | [-> | [-> | [-> | [-> | [-> | [-> | [-> | ->]]]]]]]]]];
      reflexivity.
Defined.

End HandOver.

Section RoundTrip.

Lemma tight_last c v :
  Str.isspace c = false → Str.rstrip v = v → tight (String c v).
Proof.
  intros Hc Hv. split; [| discriminate]. cbn [Str.rstrip]. rewrite Hv, Hc.
  now destruct v.
Qed.

Lemma tight_cons c b : tight b → tight (String c b).
Proof.
  intros [Hb Hne]. split; [| discriminate]. cbn [Str.rstrip]. rewrite Hb.
  destruct b; [congruence | reflexivity].
Qed.

Lemma tight_app a b : tight b → tight (a ++ b).
Proof.
  intros Hb. induction a as [| c a IH]; [exact Hb |].
  change (String c a ++ b) with (String c (a ++ b)). now apply tight_cons.
Qed.

Lemma join_cons sep x y l :
  Str.join sep (x :: y :: l) = x ++ sep ++ Str.join sep (y :: l).
Proof. reflexivity. Qed.

Lemma tight_join sep l x :
  tight x → tight (Str.join sep (l ++ [x])%list).
Proof.
  intros Hx. induction l as [| y l IH]; [exact Hx |].
  change ((y :: l) ++ [x])%list with (y :: (l ++ [x]))%list.
  destruct (l ++ [x])%list as [| z l'] eqn:E; [now destruct l |].
  rewrite join_cons. now apply tight_app, tight_app.
Qed.

Lemma split_no_sep sep s : Str.contains sep s = false → Str.split sep s = [s].
Proof.
  induction s as [| c s IH]; [reflexivity |]. cbn [Str.contains Str.split].
  destruct (Ascii.eqb c sep); [discriminate |]. intros H. now rewrite (IH H).
Qed.

(** Splitting a join gives the segments back when none has the
    separator. *)
Lemma split_join sep x l :
  Forall (fun p => Str.contains sep p = false) (x :: l) →
  Str.split sep (Str.join (String sep EmptyString) (x :: l)) = x :: l.
Proof.
  revert x. induction l as [| y l IH]; intros x H.
  - apply Forall_cons in H as [Hx _]. now apply split_no_sep.
  - apply Forall_cons in H as [Hx H]. rewrite join_cons.
    change (String sep EmptyString ++ Str.join (String sep EmptyString) (y :: l))
      with (String sep (Str.join (String sep EmptyString) (y :: l))).
    now rewrite (split_app_sep sep x _ Hx), (IH y H).
Qed.

(** The loop on segments [k:v] sets the keys one after the other. *)
Lemma parse_parts_segments value l m0 :
  Forall (fun k => Str.contains ":" k = false) l →
  parse_parts (map (fun k => k ++ ":" ++ value k) l) m0
  = foldl (fun m k => <[k := value k]> m) m0 l.
Proof.
  revert m0. induction l as [| k l IH]; intros m0 H; [reflexivity |].
  apply Forall_cons in H as [Hk H]. cbn [map foldl parse_parts].
  change (k ++ ":" ++ value k) with (k ++ String ":" (value k)).
  rewrite contains_app_sep, (split1_app ":" k (value k) Hk). cbn [negb].
  now apply IH.
Qed.

Lemma lookup_foldl_insert (value : string → string) l (m0 : gmap string string) k :
  foldl (fun m k => <[k := value k]> m) m0 l !! k
  = if decide (k ∈ l) then Some (value k) else m0 !! k.
Proof.
  revert m0. induction l as [| x l IH]; intros m0; cbn [foldl].
  - destruct (decide (k ∈ [])) as [H | _]; [| reflexivity].
    now apply elem_of_nil in H.
  - rewrite IH. destruct (decide (k ∈ l)) as [Hl | Hl].
    + rewrite decide_True by now right. reflexivity.
    + destruct (decide (k = x)) as [-> | Hx].
      * rewrite decide_True by now left. apply lookup_insert_eq.
      * rewrite decide_False by (rewrite elem_of_cons; tauto).
        now apply lookup_insert_ne.
Qed.

(** A version, a slash and joined segments [k:v], with keys and values
    free of slashes, colon-free keys and a last value that does not end in
    white space, parse to the map of the segments. *)
Lemma parse_vector_rendered ver value keys last :
  ver ≠ EmptyString → Str.all Re.ver_char ver = true →
  Forall (fun k => Str.contains ":" k = false) (keys ++ [last])%list →
  Forall (fun k => Str.contains "/" k = false ∧ Str.contains "/" (value k) = false)
         (keys ++ [last])%list →
  Str.rstrip (value last) = value last →
  parse_vector ("CVSS:" ++ ver ++ "/"
                ++ Str.join "/" (map (fun k => k ++ ":" ++ value k) (keys ++ [last])%list))
  = Ok (ver, foldl (fun m k => <[k := value k]> m) ∅ (keys ++ [last])%list).
Proof.
  intros Hne Hver Hcolon Hslash Hlast.
  set (seg := fun k => k ++ ":" ++ value k).
  assert (Hstrip : Str.strip ("CVSS:" ++ ver ++ "/"
                              ++ Str.join "/" (map seg (keys ++ [last])%list))
                   = "CVSS:" ++ ver ++ "/" ++ Str.join "/" (map seg (keys ++ [last])%list)).
  { unfold Str.strip. rewrite lstrip_app.
    change (Str.lstrip "CVSS:") with "CVSS:". cbv iota.
    apply tight_app, tight_app, tight_app.
    rewrite map_app. apply tight_join. cbn [map]. unfold seg.
    apply tight_app, tight_last; [reflexivity | exact Hlast]. }
  assert (Hsegs : Forall (fun p => Str.contains "/" p = false)
                         (map seg (keys ++ [last])%list)).
  { apply Forall_map. eapply Forall_impl; [exact Hslash |].
    intros k [Hk Hv]. unfold seg. cbn beta. now rewrite !contains_app, Hk, Hv. }
  rewrite (parse_vector_intro _ ver _ Hstrip Hne Hver).
  destruct (map seg (keys ++ [last])%list) as [| p ps] eqn:E.
  { destruct keys; discriminate E. }
  rewrite (split_join "/" p ps Hsegs), <- E. unfold seg.
  now rewrite (parse_parts_segments value _ ∅ Hcolon).
Qed.

(** X11: the vector [cvss40_base] rebuilds parses back to the eleven
    metrics it was built from, and the dispatcher hands that same string to
    the package; the values have no slash and the last one does not end in
    white space, as the values [parse_vector] reads from a string. *)
Theorem canonical40_roundtrip CVSS4 value :
  (∀ k, k ∈ required40 → Str.contains "/" (value k) = false) →
  Str.rstrip (value "SA") = value "SA" →
  (∃ m, parse_vector (canonical40 value) = Ok ("4.0", m)
        ∧ ∀ k, m !! k = if decide (k ∈ required40) then Some (value k) else None)
  ∧ compute_from_vector (inr CVSS4) (canonical40 value) = CVSS4 (canonical40 value).
Proof.
  intros Hslash Hlast.
  assert (Hparse : parse_vector (canonical40 value)
    = Ok ("4.0", foldl (fun m k => <[k := value k]> m) ∅ required40)).
  { apply (parse_vector_rendered "4.0" value
             ["AV"; "AC"; "AT"; "PR"; "UI"; "VC"; "VI"; "VA"; "SC"; "SI"] "SA");
      [discriminate | reflexivity | repeat constructor | | exact Hlast].
    apply Forall_forall. intros k Hk. split; [| now apply Hslash].
    apply required40_elems in Hk.
    destruct Hk as [-> | [-> | [-> | [-> | [-> | [-> | [-> | [-> | [-> | [-> | ->]]]]]]]]]];
      reflexivity. }
  assert (Hm : ∀ k, foldl (fun m k => <[k := value k]> m)
                            (∅ : gmap string string) required40 !! k
                    = if decide (k ∈ required40) then Some (value k) else None).
  { intros k. rewrite lookup_foldl_insert. now rewrite lookup_empty. }
  split; [eexists; split; [exact Hparse | exact Hm] |].
  unfold compute_from_vector. rewrite Hparse, bind_Ok.
  change (Str.startswith "4.0" "3.1") with false.
  change (Str.startswith "4.0" "4") with true. cbv iota.
  unfold cvss40_base. cbv zeta.
  rewrite (filter_present _ value required40), (mapM_present _ value required40), bind_Ok;
    [reflexivity | |]; intros k Hk; rewrite Hm; now rewrite decide_True.
Qed.

Lemma canonical40_roundtrip_witness :
  compute_from_vector (inr (fun _ => Ok 9.3%float)) (canonical40 (fun _ => "H"))
  = Ok 9.3%float.
Proof.
  apply (proj2 (canonical40_roundtrip (fun _ => Ok 9.3%float) (fun _ => "H")
                  (fun _ _ => eq_refl) eq_refl)).
Defined.

Lemma token31_clean v k :
  k ∈ V31.required →
  Str.contains "/" (token31 v k) = false
  ∧ Str.rstrip (token31 v k) = token31 v k
  ∧ V31.metrics v !! k = Some (token31 v k).
Proof.
  intros Hk. apply required_elems in Hk.
  destruct v as [av ac pr ui s c i a].
  destruct Hk as [-> | [-> | [-> | [-> | [-> | [-> | [-> | ->]]]]]]];
    [destruct av | destruct ac | destruct pr | destruct ui | destruct s
     | destruct c | destruct i | destruct a]; repeat split; reflexivity.
Qed.

(** X13: each of the 2592 valid v3.1 vectors, written as a vector string in
    the order AV, AC, PR, UI, S, C, I, A, is parsed to its eight metrics,
    sent to the v3.1 engine and scored: no error, with or without the
    package. *)
Theorem compute_from_vector_valid cvss v :
  (∃ m, parse_vector (render31 v) = Ok ("3.1", m) ∧ V31.holds m v)
  ∧ ∃ s, compute_from_vector cvss (render31 v) = Ok s
         ∧ cvss31_base (V31.metrics v) = Ok s.
Proof.
  assert (Hparse : parse_vector (render31 v)
    = Ok ("3.1", foldl (fun m k => <[k := token31 v k]> m) ∅ V31.required)).
  { apply (parse_vector_rendered "3.1" (token31 v)
             ["AV"; "AC"; "PR"; "UI"; "S"; "C"; "I"] "A");
      [discriminate | reflexivity | repeat constructor | |].
    - apply Forall_forall. intros k Hk. split; [| now apply token31_clean].
      apply required_elems in Hk.
      destruct Hk as [-> | [-> | [-> | [-> | [-> | [-> | [-> | ->]]]]]]]; reflexivity.
    - apply token31_clean, required_elems. auto 10. }
  assert (Hholds : V31.holds
            (foldl (fun m k => <[k := token31 v k]> m) ∅ V31.required) v).
  { intros k Hk. rewrite lookup_foldl_insert, decide_True by exact Hk.
    symmetry. now apply token31_clean. }
  split; [eexists; split; [exact Hparse | exact Hholds] |].
  destruct (cvss31_base_total v) as [s Hs]. exists s. split; [| exact Hs].
  unfold compute_from_vector. rewrite Hparse, bind_Ok.
  change (Str.startswith "3.1" "3.1") with true. cbv iota.
  unfold cvss31_base. rewrite (cvss31_lookup_agree _ _ Hholds). exact Hs.
Qed.

End RoundTrip.

(** ** Every outcome of the engine and of the dispatcher *)

Section Outcomes.

(** X6: on any metric map whatever, [cvss31_base] either raises the
    invalid-metric error or returns a score between 0.0 and 10.0 that is a
    whole number of tenths. *)
Theorem cvss31_base_range m :
  match cvss31_base m with
  | Ok s =>
      (0 <=? s)%float = true ∧ (s <=? 10)%float = true
      ∧ ∃ n, (0 ≤ n ≤ 100)%Z ∧ tenth n = Ok s
  | Raise e => ∃ k, e = InvalidMetric k
  end.
Proof.
  destruct (cvss31_base_shape_cases m) as [[k ->] | (n & Hn & ->)];
    [now exists k |].
  pose proof (for_all_tenths (fun n => in_range (tenth n))
                ltac:(vm_compute; reflexivity) n Hn) as Hr.
  cbv beta in Hr. destruct (tenth n) as [s |] eqn:E; [| discriminate].
  cbn [in_range] in Hr. apply andb_prop in Hr as [H0 H10].
  split; [exact H0 |]. split; [exact H10 |]. now exists n.
Qed.

Lemma parse_vector_Raise raw e :
  parse_vector raw = Raise e → e = MalformedVector ∨ e = MissingVersion.
Proof.
  unfold parse_vector.
  destruct (negb (Str.startswith (Str.strip raw) "CVSS:")).
  - intros [= <-]. now left.
  - destruct (Re.match_version (Str.strip raw)); [discriminate |].
    intros [= <-]. now right.
Qed.

Lemma filter_nil_present (m : gmap string string) l :
  List.filter (fun k => match m !! k with None => true | Some _ => false end) l = [] →
  ∀ k, k ∈ l → m !! k = Some (default EmptyString (m !! k)).
Proof.
  intros Hnil k Hk. destruct (m !! k) as [v |] eqn:E; [reflexivity |].
  assert (Hin : In k (List.filter
            (fun k => match m !! k with None => true | Some _ => false end) l)).
  { apply filter_In. split; [now apply list_elem_of_In | now rewrite E]. }
  rewrite Hnil in Hin. destruct Hin.
Qed.

(** The outcomes of [cvss40_base]. *)
Lemma cvss40_base_cases cvss m :
  (∃ cause, cvss = inl cause ∧ cvss40_base cvss m = Raise (ProviderUnavailable cause))
  ∨ (∃ missing, cvss40_base cvss m = Raise (MissingMetrics missing))
  ∨ (∃ CVSS4 vector, cvss = inr CVSS4 ∧ cvss40_base cvss m = CVSS4 vector).
Proof.
  destruct cvss as [cause | CVSS4]; [left; now exists cause |]. right.
  unfold cvss40_base. cbv zeta.
  destruct (List.filter _ required40) as [| k missing] eqn:Hf.
  - right. exists CVSS4. eexists. split; [reflexivity |].
    rewrite (mapM_present m (fun k => default EmptyString (m !! k)) required40
               (filter_nil_present m required40 Hf)), bind_Ok.
    reflexivity.
  - left. now eexists.
Qed.

(** X12: every outcome of [compute_from_vector] is accounted for: a score
    of whole tenths between 0.0 and 10.0 from the v3.1 engine, one of the
    six errors of the module, or what the package returned or raised for a
    v4.0 vector; no [KeyError] and no arithmetic error of the v3.1 engine
    escapes. *)
Theorem compute_from_vector_outcomes cvss raw :
  match compute_from_vector cvss raw with
  | Ok s =>
      (∃ n, (0 ≤ n ≤ 100)%Z ∧ tenth n = Ok s)
      ∨ (∃ CVSS4 vector, cvss = inr CVSS4 ∧ CVSS4 vector = Ok s)
  | Raise e =>
      e = MalformedVector ∨ e = MissingVersion
      ∨ (∃ k, e = InvalidMetric k)
      ∨ (∃ missing, e = MissingMetrics missing)
      ∨ (∃ ver, e = UnsupportedVersion ver)
      ∨ (∃ cause, cvss = inl cause ∧ e = ProviderUnavailable cause)
      ∨ (∃ CVSS4 vector, cvss = inr CVSS4 ∧ CVSS4 vector = Raise e)
  end.
Proof.
  unfold compute_from_vector.
  destruct (parse_vector raw) as [[ver m] | e] eqn:Hparse.
  - rewrite bind_Ok.
    destruct (Str.startswith ver "3.1").
    + destruct (cvss31_base_shape_cases m) as [[k ->] | (n & Hn & Hm)].
      * right. right. left. now exists k.
      * rewrite Hm. destruct (tenth n) as [s | e] eqn:E.
        -- left. now exists n.
        -- pose proof (for_all_tenths (fun n => in_range (tenth n))
                         ltac:(vm_compute; reflexivity) n Hn) as Hr.
           cbv beta in Hr. rewrite E in Hr. discriminate Hr.
    + destruct (Str.startswith ver "4").
      * destruct (cvss40_base_cases cvss m)
          as [(cause & -> & ->) | [(missing & ->) | (CVSS4 & vector & -> & ->)]].
        -- do 5 right. left. now exists cause.
        -- do 3 right. left. now exists missing.
        -- destruct (CVSS4 vector) as [s | e] eqn:E.
           ++ right. now exists CVSS4, vector.
           ++ do 6 right. now exists CVSS4, vector.
      * do 4 right. left. now exists ver.
  - rewrite bind_Raise. destruct (parse_vector_Raise raw e Hparse) as [-> | ->]; auto.
Qed.

End Outcomes.

(** ** When the v3.1 engine returns a score *)

Section Acceptance.
Import V31 Formula.

(** X14: [cvss31_base] returns a score exactly on the maps without an
    offending key: the eight required keys are present and the values of
    AV, AC, PR, UI, C, I and A are in their tables; the value of S is not
    checked. *)
Theorem cvss31_base_Ok_iff m :
  (∃ s, cvss31_base m = Ok s) ↔ ∀ k, ¬ offending m k.
Proof.
  split.
  - intros [s Hs] k Hk. revert Hs. unfold cvss31_base.
    destruct (cvss31_lookup_cases m) as [(w & _ & Hnone) | (k' & _ & ->)].
    + destruct (Hnone k Hk).
    + discriminate.
  - intros Hnone.
    destruct (cvss31_lookup_cases m) as [(w & Hw & _) | (k & Hk & _)];
      [| destruct (Hnone k Hk)].
    destruct (cvss31_base_scored m w Hw) as (n & Hn & Hm).
    pose proof (for_all_tenths (fun n => in_range (tenth n))
                  ltac:(vm_compute; reflexivity) n Hn) as Hr.
    cbv beta in Hr. rewrite Hm.
    destruct (tenth n) as [s |]; [now exists s | discriminate].
Qed.

(** X15: a scope that is neither U nor C is not rejected. With the other
    seven metrics valid, the map is scored with the privileges weight of
    the unchanged scope and with the impact and the scaling of the changed
    scope. *)
Theorem cvss31_base_unknown_scope m v scope :
  scope ≠ "U" → scope ≠ "C" →
  m !! "S" = Some scope →
  (∀ k, k ∈ required → k ≠ "S" → m !! k = metrics v !! k) →
  cvss31_base m =
  (impact ← cvss31_impact "C" (iss v);
   roundup_1_dec
     (cvss31_pre_round "C" impact
        (cvss31_exploitability (av_weight (AV v)) (ac_weight (AC v))
           (pr_weight Unchanged (PR v)) (ui_weight (UI v))))).
Proof.
  intros HU HC HS Hm.
  apply String.eqb_neq in HU, HC.
  assert (Hget : ∀ k t, k ∈ required → k ≠ "S" → metrics v !! k = Some t →
                        getitem m k = Ok t).
  { intros k t Hk Hne Ht. apply getitem_Some. now rewrite (Hm k Hk Hne). }
  assert (Hw : cvss31_lookup m =
    Ok (Weights (av_weight (AV v)) (ac_weight (AC v)) scope
                (pr_weight Unchanged (PR v)) (ui_weight (UI v))
                (cia_weight (C v)) (cia_weight (I v)) (cia_weight (A v)))).
  { unfold cvss31_lookup.
    rewrite (Hget "AV" (av_token (AV v))), bind_Ok, getitem_AV, bind_Ok
      by (rewrite ?required_elems; auto 10; discriminate).
    rewrite (Hget "AC" (ac_token (AC v))), bind_Ok, getitem_AC, bind_Ok
      by (rewrite ?required_elems; auto 10; discriminate).
    rewrite (getitem_Some m "S" scope HS), bind_Ok. cbv zeta. rewrite HC.
    rewrite (Hget "PR" (pr_token (PR v))), bind_Ok, (getitem_PR Unchanged), bind_Ok
      by (rewrite ?required_elems; auto 10; discriminate).
    rewrite (Hget "UI" (ui_token (UI v))), bind_Ok, getitem_UI, bind_Ok
      by (rewrite ?required_elems; auto 10; discriminate).
    rewrite (Hget "C" (cia_token (C v))), bind_Ok, getitem_CIA, bind_Ok
      by (rewrite ?required_elems; auto 10; discriminate).
    rewrite (Hget "I" (cia_token (I v))), bind_Ok, getitem_CIA, bind_Ok
      by (rewrite ?required_elems; auto 10; discriminate).
    rewrite (Hget "A" (cia_token (A v))), bind_Ok, getitem_CIA, bind_Ok
      by (rewrite ?required_elems; auto 10; discriminate).
    reflexivity. }
  unfold cvss31_base. rewrite Hw.
  cbn [w_av w_ac w_scope w_pr w_ui w_c w_i w_a].
  change (cvss31_iss (cia_weight (C v)) (cia_weight (I v)) (cia_weight (A v)))
    with (iss v).
  unfold cvss31_impact, cvss31_pre_round. rewrite HU.
  reflexivity.
Qed.

Lemma cvss31_base_unknown_scope_witness :
  cvss31_base odd_scope = Ok 4.7%float.
Proof.
  rewrite (cvss31_base_unknown_scope odd_scope
             (Vector AV_N AC_L PR_L UI_N Changed Low None_ None_) "X").
  - vm_compute. reflexivity.
  - discriminate.
  - discriminate.
  - reflexivity.
  - intros k Hk Hne. apply required_elems in Hk.
    destruct Hk as [-> | [-> | [-> | [-> | [-> | [-> | [-> | ->]]]]]]];
      try reflexivity. now destruct Hne.
Defined.

End Acceptance.

(** ** Blank input *)

Section Blank.

(** X16: the empty string, and every string of white space only, is
    rejected with the malformed-vector error, for the parser and for the
    dispatcher. *)
Theorem parse_vector_blank cvss raw :
  Str.all Str.isspace raw = true →
  parse_vector raw = Raise MalformedVector
  ∧ compute_from_vector cvss raw = Raise MalformedVector.
Proof.
  intros Hraw.
  assert (E : parse_vector raw = Raise MalformedVector).
  { unfold parse_vector, Str.strip. now rewrite (lstrip_only_spaces raw Hraw). }
  split; [exact E |]. unfold compute_from_vector. now rewrite E.
Qed.

Lemma parse_vector_blank_witness :
  parse_vector "   " = Raise MalformedVector.
Proof. apply (proj1 (parse_vector_blank no_cvss "   " eq_refl)). Defined.

End Blank.
